(** * physics_simulator.py: the particle ensemble [ParticleSystem]

    A shallow embedding of the class [ParticleSystem] of
    [physics_simulator.py] and the properties of its kinetics engine.

    Numbers.  The program computes with IEEE doubles held in numpy arrays.
    They are modelled by real numbers ([R]); rounding, overflow and
    infinities are outside the model.  The one place where the program can
    produce a NaN from finite input, [np.sqrt] of a negative number, is kept:
    a scalar that may be NaN has type [npfloat].

    Arrays.  An array of shape (n, 2) is a list of pairs, an array of shape
    (n,) a list.  The numpy operations the class uses are written out with
    their shape rules (broadcasting of a length-1 axis, [ValueError] on a
    mismatch).

    Randomness.  [np.random.rand] and [maxwell.rvs] draw from a global
    generator; the draws are taken from an explicit [RandomSource]. *)

From Stdlib Require Import Reals Lra String ZArith Lia Bool List.
Import ListNotations.

Open Scope R_scope.

(** ** Exceptions and the error monad *)

Inductive pyerror : Set :=
| ValueError
| ZeroDivisionError.

Inductive result (A : Type) : Type :=
| Ok (a : A)
| Raise (e : pyerror).

Arguments Ok {A} a.
Arguments Raise {A} e.

Definition bind {A B : Type} (m : result A) (k : A -> result B) : result B :=
  match m with
  | Ok a => k a
  | Raise e => Raise e
  end.

Notation "x <- m ;; k" := (bind m (fun x => k))
  (at level 61, m at next level, right associativity).

Definition is_ok {A : Type} (m : result A) : bool :=
  match m with
  | Ok _ => true
  | Raise _ => false
  end.

(** ** Scalars *)

(** A double that is either a finite real or NaN. *)
Inductive npfloat : Type :=
| Fin (r : R)
| NaN.

(** [a * b] on doubles: NaN is absorbing. *)
Definition fmul (a b : npfloat) : npfloat :=
  match a, b with
  | Fin x, Fin y => Fin (x * y)
  | _, _ => NaN
  end.

(** [np.sqrt]: NaN on a negative argument (with a RuntimeWarning, no
    exception). *)
Definition np_sqrt (x : R) : npfloat :=
  if Rlt_dec x 0 then NaN else Fin (sqrt x).

(** Python's [a / b] on floats: [ZeroDivisionError] when [b] is zero. *)
Definition py_div (a b : R) : result R :=
  if Req_dec_T b 0 then Raise ZeroDivisionError else Ok (a / b).

Definition Rltb (x y : R) : bool := if Rlt_dec x y then true else false.
Definition Rgtb (x y : R) : bool := Rltb y x.

(** ** numpy arrays *)

Section Arrays.
Context {A B C : Type}.

Fixpoint zipWith (f : A -> B -> C) (a : list A) (b : list B) : list C :=
  match a, b with
  | x :: a', y :: b' => f x y :: zipWith f a' b'
  | _, _ => []
  end.
End Arrays.

(** The length of one axis of the result of broadcasting two arrays. *)
Definition bdim (a b : nat) : result nat :=
  if Nat.eqb a b then Ok a
  else if Nat.eqb a 1 then Ok b
  else if Nat.eqb b 1 then Ok a
  else Raise ValueError.

(** Stretch an array to length [k]: only a length-1 array stretches. *)
Definition broadcast_to {A : Type} (k : nat) (a : list A) : result (list A) :=
  if Nat.eqb (length a) k then Ok a
  else match a with
       | [x] => Ok (repeat x k)
       | _ => Raise ValueError
       end.

(** An elementwise binary operation [a op b] on two arrays. *)
Definition np_binop {A B C : Type} (f : A -> B -> C) (a : list A) (b : list B)
  : result (list C) :=
  d <- bdim (length a) (length b) ;;
  a' <- broadcast_to d a ;;
  b' <- broadcast_to d b ;;
  Ok (zipWith f a' b').

(** An in-place operation [a op= b]: the result must have the shape of [a]. *)
Definition np_inplace {A B : Type} (f : A -> B -> A) (a : list A) (b : list B)
  : result (list A) :=
  b' <- broadcast_to (length a) b ;;
  Ok (zipWith f a b').

(** [np.where(c, a, b)]. *)
Definition np_where {A : Type} (c : list bool) (a b : list A)
  : result (list A) :=
  ab <- np_binop pair a b ;;
  np_binop (fun (t : bool) (xy : A * A) => if t then fst xy else snd xy) c ab.

(** [a[:, 0]] and [a[:, 1]] of an array of shape (n, 2). *)
Definition col0 (a : list (R * R)) : list R := map fst a.
Definition col1 (a : list (R * R)) : list R := map snd a.

(** [a[:, 0] = c] and [a[:, 1] = c]. *)
Definition set_col0 (a : list (R * R)) (c : list R) : result (list (R * R)) :=
  np_inplace (fun (r : R * R) (x : R) => (x, snd r)) a c.
Definition set_col1 (a : list (R * R)) (c : list R) : result (list (R * R)) :=
  np_inplace (fun (r : R * R) (y : R) => (fst r, y)) a c.

(** [a * k] for an array of shape (n, 2) and a scalar. *)
Definition np_scale2 (a : list (R * R)) (k : R) : list (R * R) :=
  map (fun r => (fst r * k, snd r * k)) a.

(** [a += b] for arrays of shape (n, 2) and (m, 2). *)
Definition np_iadd2 (a b : list (R * R)) : result (list (R * R)) :=
  np_inplace (fun p q : R * R => (fst p + fst q, snd p + snd q)) a b.

(** [np.column_stack([a, b])] of two one-dimensional arrays. *)
Definition np_column_stack (a b : list R) : result (list (R * R)) :=
  if Nat.eqb (length a) (length b) then Ok (zipWith pair a b)
  else Raise ValueError.

(** [np.linalg.norm(a, axis=1)]: the Euclidean norm of every row. *)
Definition np_linalg_norm_axis1 (a : list (R * R)) : list R :=
  map (fun r => sqrt (fst r * fst r + snd r * snd r)) a.

(** ** The random source *)

Record RandomSource : Type := {
  (** the i-th row drawn by [np.random.rand(n, 2)] *)
  uniform2 : nat -> R * R;
  (** the i-th draw of the Maxwell distribution of scale 1 *)
  maxwell_unit : nat -> R;
  (** the i-th value drawn by [np.random.rand(n)] *)
  uniform1 : nat -> R
}.

Definition indices (n : Z) : list nat := seq 0 (Z.to_nat n).

(** [np.random.rand(n, 2)]: a negative dimension is a [ValueError]. *)
Definition np_random_rand2 (rng : RandomSource) (n : Z) : result (list (R * R)) :=
  if (n <? 0)%Z then Raise ValueError
  else Ok (map (uniform2 rng) (indices n)).

(** [np.random.rand(n)]. *)
Definition np_random_rand1 (rng : RandomSource) (n : Z) : result (list R) :=
  if (n <? 0)%Z then Raise ValueError
  else Ok (map (uniform1 rng) (indices n)).

(** [scipy.stats.maxwell.rvs(scale=scale, size=n)]: the arguments are checked
    first ([ValueError] unless [scale >= 0], so also for NaN), then [n]
    standard draws are multiplied by [scale]. *)
Definition maxwell_rvs (rng : RandomSource) (scale : npfloat) (n : Z)
  : result (list R) :=
  match scale with
  | NaN => Raise ValueError
  | Fin sc =>
      if Rlt_dec sc 0 then Raise ValueError
      else if (n <? 0)%Z then Raise ValueError
      else Ok (map (fun i => sc * maxwell_unit rng i) (indices n))
  end.

(** ** The class *)

Record ParticleSystem : Type := {
  n : Z;
  simulation_mode : string;
  physical_param : R;
  box_size : R;
  pos : list (R * R);
  vel : list (R * R)
}.

Definition set_pos (s : ParticleSystem) (a : list (R * R)) : ParticleSystem :=
  {| n := n s; simulation_mode := simulation_mode s;
     physical_param := physical_param s; box_size := box_size s;
     pos := a; vel := vel s |}.

Definition set_vel (s : ParticleSystem) (a : list (R * R)) : ParticleSystem :=
  {| n := n s; simulation_mode := simulation_mode s;
     physical_param := physical_param s; box_size := box_size s;
     pos := pos s; vel := a |}.

(** The time increment of [update]. *)
Definition dt : R := 0.03.

(** Lines 24-33.  The scale is computed in the body (lines 26-29), then the
    speeds and the angles are drawn and combined. *)
Definition _initialize_velocities (rng : RandomSource) (s : ParticleSystem)
  : result ParticleSystem :=
  scale <- (if String.eqb (simulation_mode s) "temperature"
            then Ok (Fin (physical_param s))
            else q <- py_div 1 (physical_param s) ;; Ok (np_sqrt q)) ;;
  speed <- maxwell_rvs rng scale (n s) ;;
  u <- np_random_rand1 rng (n s) ;;
  let angle := map (fun x => x * 2 * PI) u in
  vx <- np_binop Rmult speed (map cos angle) ;;
  vy <- np_binop Rmult speed (map sin angle) ;;
  v <- np_column_stack vx vy ;;
  Ok (set_vel s v).

(** Lines 9-22: the constructor.  The attribute [vel] does not exist before
    [_initialize_velocities] has run; the record holds [[]] until then. *)
Definition __init__ (rng : RandomSource) (n0 : Z) (mode : string) (param : R)
  : result ParticleSystem :=
  u <- np_random_rand2 rng n0 ;;
  _initialize_velocities rng
    {| n := n0; simulation_mode := mode; physical_param := param;
       box_size := 15; pos := np_scale2 u 15; vel := [] |}.

(** The condition [(x < 0) | (x > self.box_size)] of lines 43 and 47. *)
Definition outside (box x : R) : bool := Rltb x 0 || Rgtb x box.

(** Lines 40-49: the two column assignments, one after the other. *)
Definition _handle_boundary (s : ParticleSystem) : result ParticleSystem :=
  vx <- np_where (map (outside (box_size s)) (col0 (pos s)))
                 (map Ropp (col0 (vel s))) (col0 (vel s)) ;;
  v1 <- set_col0 (vel s) vx ;;
  let s1 := set_vel s v1 in
  vy <- np_where (map (outside (box_size s1)) (col1 (pos s1)))
                 (map Ropp (col1 (vel s1))) (col1 (vel s1)) ;;
  v2 <- set_col1 (vel s1) vy ;;
  Ok (set_vel s1 v2).

(** Lines 35-38: [self.pos += self.vel * 0.03], then the boundary. *)
Definition update (s : ParticleSystem) : result ParticleSystem :=
  p <- np_iadd2 (pos s) (np_scale2 (vel s) dt) ;;
  _handle_boundary (set_pos s p).

(** Lines 51-54: the property [speeds]. *)
Definition speeds (s : ParticleSystem) : list R :=
  np_linalg_norm_axis1 (vel s).

(** Lines 56-66. *)
Definition get_characteristic_speeds (s : ParticleSystem)
  : result (npfloat * npfloat * npfloat) :=
  scale <- (if String.eqb (simulation_mode s) "temperature"
            then Ok (Fin (physical_param s))
            else q <- py_div 1 (physical_param s) ;; Ok (np_sqrt q)) ;;
  let v_p := fmul (Fin (sqrt 2)) scale in
  let v_mean := fmul (Fin (2 * sqrt (2 / PI))) scale in
  let v_rms := fmul (Fin (sqrt 3)) scale in
  Ok (v_p, v_mean, v_rms).

(** The effect of [update] on one particle, written out: the translated
    position, and the velocity reflected on the axes where the translated
    position has left the box. *)
Definition moved (p v : R * R) : R * R :=
  (fst p + fst v * dt, snd p + snd v * dt).

Definition reflected (box : R) (p' v : R * R) : R * R :=
  (if outside box (fst p') then - fst v else fst v,
   if outside box (snd p') then - snd v else snd v).

(** ** The calls a client can make on a constructed system *)

Inductive call : Set :=
| CallUpdate
| CallSpeeds
| CallCharacteristicSpeeds.

Inductive value : Type :=
| VNone
| VSpeeds (l : list R)
| VTriple (t : npfloat * npfloat * npfloat).

Definition perform (c : call) (s : ParticleSystem)
  : result (ParticleSystem * value) :=
  match c with
  | CallUpdate => s' <- update s ;; Ok (s', VNone)
  | CallSpeeds => Ok (s, VSpeeds (speeds s))
  | CallCharacteristicSpeeds =>
      t <- get_characteristic_speeds s ;; Ok (s, VTriple t)
  end.

Fixpoint run (cs : list call) (s : ParticleSystem) : result ParticleSystem :=
  match cs with
  | [] => Ok s
  | c :: cs' => r <- perform c s ;; run cs' (fst r)
  end.

(** [k] calls of [update] in a row. *)
Fixpoint advance (k : nat) (s : ParticleSystem) : result ParticleSystem :=
  match k with
  | O => Ok s
  | S k' => s' <- update s ;; advance k' s'
  end.

(** The shape invariant of the class: both arrays have [n] rows. *)
Definition shaped (s : ParticleSystem) : Prop :=
  Z.of_nat (length (pos s)) = n s /\ Z.of_nat (length (vel s)) = n s.

(** ** Auxiliary definitions used by the statements *)

(** One axis of the reflection at a time, as [_handle_boundary] does it. *)
Definition reflected0 (box : R) (p' v : R * R) : R * R :=
  (if outside box (fst p') then - fst v else fst v, snd v).

Definition reflected1 (box : R) (p' v : R * R) : R * R :=
  (fst v, if outside box (snd p') then - snd v else snd v).

(** The scale computed at lines 26-29 and again at lines 58-61. *)
Definition mode_scale (mode : string) (param : R) : result npfloat :=
  if String.eqb mode "temperature"
  then Ok (Fin param)
  else q <- py_div 1 param ;; Ok (np_sqrt q).

(** The scale as the specification words it, for the two documented modes. *)
Inductive Mode : Set := Temperature | Mass.

Definition mode_name (m : Mode) : string :=
  match m with
  | Temperature => "temperature"
  | Mass => "mass"
  end.

Definition scale_spec (m : Mode) (physicalParam : R) : R :=
  match m with
  | Temperature => physicalParam
  | Mass => sqrt (1 / physicalParam)
  end.

(** The velocities obtained from the draws of [rng] at scale [sc]. *)
Definition drawn (rng : RandomSource) (sc : R) (k : Z) : list (R * R) :=
  map (fun i => (sc * maxwell_unit rng i * cos (uniform1 rng i * 2 * PI),
                 sc * maxwell_unit rng i * sin (uniform1 rng i * 2 * PI)))
      (indices k).


(** Row [i] of an array of shape (n, 2), and the Euclidean norm of a row. *)
Definition row (a : list (R * R)) (i : nat) : R * R := nth i a (0, 0).

Definition norm2 (v : R * R) : R := sqrt (fst v * fst v + snd v * snd v).

(** The three characteristic speeds at a finite scale [sc]. *)
Definition triple_at (sc : R) : npfloat * npfloat * npfloat :=
  (Fin (sqrt 2 * sc), Fin (2 * sqrt (2 / PI) * sc), Fin (sqrt 3 * sc)).

(** ** Concrete inputs *)

(** A random source whose draws are constant. *)
Definition rng0 : RandomSource :=
  {| uniform2 := fun _ => (1 / 2, 1 / 2);
     maxwell_unit := fun _ => 1;
     uniform1 := fun _ => 0 |}.

(** One particle 0.01 left of the right wall, moving right at speed 10. *)
Definition near_wall : ParticleSystem :=
  {| n := 1; simulation_mode := "temperature"; physical_param := 1;
     box_size := 15; pos := [(15 - 0.01, 5)]; vel := [(10, 0)] |}.

(** [near_wall] after one [update], as the closed form gives it. *)
Definition near_wall_next : ParticleSystem :=
  {| n := 1; simulation_mode := "temperature"; physical_param := 1;
     box_size := 15;
     pos := zipWith moved (pos near_wall) (vel near_wall);
     vel := zipWith (reflected 15)
              (zipWith moved (pos near_wall) (vel near_wall))
              (vel near_wall) |}.

(** A velocity component of some particle has changed sign between [s] and
    [s']: the old and the new value have opposite strict signs. *)
Definition sign_changed (s s' : ParticleSystem) : Prop :=
  exists i, (i < length (vel s))%nat /\
    (fst (row (vel s) i) * fst (row (vel s') i) < 0 \/
     snd (row (vel s) i) * snd (row (vel s') i) < 0).

(** ** Confinement *)

(** One coordinate [x] of a particle with velocity component [v] is
    confined to the box: it is inside, or it is outside by what the last
    step carried it and the component already points back, so that the next
    step lands inside. *)
Definition confined (box x v : R) : Prop :=
  0 <= x <= box \/
  (box < x /\ v < 0 /\ 0 <= x + v * dt <= box) \/
  (x < 0 /\ 0 < v /\ 0 <= x + v * dt <= box).

Definition confined_state (s : ParticleSystem) : Prop :=
  length (pos s) = length (vel s) /\
  forall i, (i < length (pos s))%nat ->
    confined (box_size s) (fst (row (pos s) i)) (fst (row (vel s) i)) /\
    confined (box_size s) (snd (row (pos s) i)) (snd (row (vel s) i)).

(** The documented range of the draws: [np.random.rand] draws from [0, 1),
    a Maxwell speed is never negative. *)
Definition in_range (rng : RandomSource) : Prop :=
  forall i,
    0 <= fst (uniform2 rng i) < 1 /\ 0 <= snd (uniform2 rng i) < 1 /\
    0 <= uniform1 rng i < 1 /\ 0 <= maxwell_unit rng i.

(** ** The script (lines 69-140) *)

(** [np.linspace(start, stop, num)] for [num] above 1: [num] points, at
    equal steps of [(stop - start) / (num - 1)]. *)
Definition np_linspace (start stop : R) (num : nat) : list R :=
  map (fun i => start + INR i * ((stop - start) / INR (num - 1))) (seq 0 num).

(** [scipy.stats.maxwell.pdf(x, scale=scale)] at one point: NaN unless
    [scale > 0]; 0 below the support; otherwise the standard density
    sqrt(2/pi) * y^2 * exp(-y^2 / 2) at [y = x / scale], divided by
    [scale]. *)
Definition maxwell_pdf (scale : npfloat) (x : R) : npfloat :=
  match scale with
  | NaN => NaN
  | Fin sc =>
      if Rlt_dec 0 sc then
        if Rlt_dec x 0 then Fin 0
        else Fin (sqrt (2 / PI) * (x / sc) * (x / sc)
                  * exp (- ((x / sc) * (x / sc)) / 2) / sc)
      else NaN
  end.

(** Lines 76-87: the radio button and the slider that is shown for its
    setting give the mode and the physical parameter. *)
Definition sidebar (current_mode : string) (slider_value : R) : string * R :=
  if String.eqb current_mode "温度变化"
  then ("temperature"%string, slider_value)
  else ("mass"%string, slider_value).

(** Line 115: the right end of the speed axis. *)
Definition max_speed (mode_param : string) (physical_param_value : R) : R :=
  if String.eqb mode_param "mass" then 5
  else Rmin 20 (Rmax 5 (4 * physical_param_value)).

(** What the script hands to the plotting calls. *)
Record Frame : Type := {
  (** the system after its one [update]; [pos] goes to [ax1.scatter] *)
  system : ParticleSystem;
  (** [v_p, v_mean, v_rms], the three vertical lines *)
  marks : npfloat * npfloat * npfloat;
  (** [ax2.set_xlim(0, max_speed)] *)
  xlim : R;
  speed_range : list R;
  theory_curve : list npfloat;
  (** [system.speeds], the data of [ax2.hist] *)
  hist_data : list R
}.

(** Lines 89-127, without the rendering and the title. *)
Definition script (rng : RandomSource) (current_mode : string)
           (particle_count : Z) (slider_value : R) : result Frame :=
  let mode_param := fst (sidebar current_mode slider_value) in
  let physical_param_value := snd (sidebar current_mode slider_value) in
  s0 <- __init__ rng particle_count mode_param physical_param_value ;;
  t <- get_characteristic_speeds s0 ;;
  s1 <- update s0 ;;
  let ms := max_speed mode_param physical_param_value in
  let xs := np_linspace 0 ms 300 in
  scale <- (if String.eqb mode_param "temperature"
            then Ok (Fin physical_param_value)
            else q <- py_div 1 physical_param_value ;; Ok (np_sqrt q)) ;;
  Ok {| system := s1; marks := t; xlim := ms; speed_range := xs;
        theory_curve := map (maxwell_pdf scale) xs;
        hist_data := speeds s1 |}.

(** ** More concrete inputs *)

(** Two particles whose arrays disagree on the number of rows. *)
Definition misshaped : ParticleSystem :=
  {| n := 2; simulation_mode := "temperature"; physical_param := 1;
     box_size := 15; pos := [(1, 1); (2, 2)]; vel := [(1, 0)] |}.


(** One particle placed well beyond the right wall. *)
Definition far_out : ParticleSystem :=
  {| n := 1; simulation_mode := "temperature"; physical_param := 1;
     box_size := 15; pos := [(20, 5)]; vel := [(10, 0)] |}.

Definition far_out_next : ParticleSystem :=
  {| n := 1; simulation_mode := "temperature"; physical_param := 1;
     box_size := 15;
     pos := zipWith moved (pos far_out) (vel far_out);
     vel := zipWith (reflected 15)
              (zipWith moved (pos far_out) (vel far_out)) (vel far_out) |}.

Definition far_out_next2 : ParticleSystem :=
  {| n := 1; simulation_mode := "temperature"; physical_param := 1;
     box_size := 15;
     pos := zipWith moved (pos far_out_next) (vel far_out_next);
     vel := zipWith (reflected 15)
              (zipWith moved (pos far_out_next) (vel far_out_next))
              (vel far_out_next) |}.

(** * Properties *)

(** ** Lists and arrays *)

Lemma broadcast_to_same {T : Type} (a : list T) k :
  length a = k -> broadcast_to k a = Ok a.
Proof.
  intros H; unfold broadcast_to.
  now rewrite (proj2 (Nat.eqb_eq _ _) H).
Qed.

Lemma broadcast_to_ok {T : Type} (a : list T) k r :
  broadcast_to k a = Ok r ->
  length r = k /\ (length a = k \/ length a = 1%nat).
Proof.
  unfold broadcast_to.
  destruct (Nat.eqb (length a) k) eqn:E.
  - apply Nat.eqb_eq in E; intros [= <-]; auto.
  - destruct a as [|x [|y a]]; intros [= <-].
    split; [apply repeat_length | now right].
Qed.

Section ArrayLemmas.
Context {A B C : Type}.
Implicit Types (a : list A) (b : list B).

Lemma zipWith_length (f : A -> B -> C) a b :
  length (zipWith f a b) = Nat.min (length a) (length b).
Proof.
  revert b; induction a as [|x a IH]; intros [|y b]; simpl; try reflexivity.
  now rewrite IH.
Qed.

Lemma zipWith_nth (f : A -> B -> C) a b i da db dc :
  length a = length b -> (i < length a)%nat ->
  nth i (zipWith f a b) dc = f (nth i a da) (nth i b db).
Proof.
  revert b i; induction a as [|x a IH]; intros [|y b] i H Hi; simpl in *;
    try lia; try discriminate.
  destruct i as [|i]; [reflexivity|].
  apply IH; [congruence | lia].
Qed.

Lemma np_binop_same (f : A -> B -> C) a b :
  length a = length b -> np_binop f a b = Ok (zipWith f a b).
Proof.
  intros H; unfold np_binop, bdim.
  rewrite (proj2 (Nat.eqb_eq _ _) H); simpl.
  rewrite (broadcast_to_same a) by reflexivity; simpl.
  now rewrite (broadcast_to_same b) by auto.
Qed.
End ArrayLemmas.

Lemma bdim_ok (a b d : nat) :
  bdim a b = Ok d ->
  (a = b /\ d = a) \/ (a = 1%nat /\ d = b) \/ (b = 1%nat /\ d = a).
Proof.
  unfold bdim.
  destruct (Nat.eqb a b) eqn:E1; [apply Nat.eqb_eq in E1; intros [= <-]; auto|].
  destruct (Nat.eqb a 1) eqn:E2; [apply Nat.eqb_eq in E2; intros [= <-]; auto|].
  destruct (Nat.eqb b 1) eqn:E3; [apply Nat.eqb_eq in E3; intros [= <-]; auto|].
  discriminate.
Qed.

Lemma np_binop_length {A B C : Type} (f : A -> B -> C) a b r :
  np_binop f a b = Ok r -> bdim (length a) (length b) = Ok (length r).
Proof.
  unfold np_binop.
  destruct (bdim (length a) (length b)) as [d|e] eqn:Ed; simpl; [|discriminate].
  destruct (broadcast_to d a) as [a'|e] eqn:Ea; simpl; [|discriminate].
  destruct (broadcast_to d b) as [b'|e] eqn:Eb; simpl; [|discriminate].
  intros [= <-].
  apply broadcast_to_ok in Ea, Eb.
  rewrite zipWith_length; f_equal; lia.
Qed.

Lemma np_inplace_same {A B : Type} (f : A -> B -> A) a b :
  length b = length a -> np_inplace f a b = Ok (zipWith f a b).
Proof.
  intros H; unfold np_inplace.
  now rewrite broadcast_to_same.
Qed.

Lemma np_inplace_ok {A B : Type} (f : A -> B -> A) a b r :
  np_inplace f a b = Ok r ->
  length r = length a /\ (length b = length a \/ length b = 1%nat).
Proof.
  unfold np_inplace.
  destruct (broadcast_to (length a) b) as [b'|e] eqn:Eb; simpl; [|discriminate].
  intros [= <-].
  apply broadcast_to_ok in Eb.
  split; [rewrite zipWith_length; lia | tauto].
Qed.

Lemma np_where_same {A : Type} (c : list bool) (a b : list A) :
  length a = length c -> length b = length c ->
  np_where c a b =
    Ok (zipWith (fun (t : bool) (xy : A * A) => if t then fst xy else snd xy)
          c (zipWith pair a b)).
Proof.
  intros Ha Hb; unfold np_where.
  rewrite (np_binop_same pair a b) by congruence; simpl.
  apply np_binop_same.
  rewrite zipWith_length; lia.
Qed.

(** The result of [np.where] on two arrays of one length [m] and a condition
    of length [k] has the broadcast of [k] and [m] as its length. *)
Lemma np_where_length {A : Type} (c : list bool) (a b r : list A) :
  length a = length b ->
  np_where c a b = Ok r -> bdim (length c) (length a) = Ok (length r).
Proof.
  intros Hab; unfold np_where.
  rewrite (np_binop_same pair a b) by assumption; simpl.
  intros H; apply np_binop_length in H.
  rewrite zipWith_length in H.
  now replace (Nat.min (length a) (length b)) with (length a) in H by lia.
Qed.

(** ** [update] on a well-shaped state *)

Lemma iadd_rows (p v : list (R * R)) :
  zipWith (fun a b : R * R => (fst a + fst b, snd a + snd b)) p (np_scale2 v dt)
  = zipWith moved p v.
Proof.
  revert v; induction p as [|x p IH]; intros [|y v]; simpl; try reflexivity.
  apply f_equal2; [reflexivity | apply IH].
Qed.

Lemma column0_rows box (p v : list (R * R)) :
  zipWith (fun (r : R * R) (x : R) => (x, snd r)) v
    (zipWith (fun (t : bool) (xy : R * R) => if t then fst xy else snd xy)
       (map (outside box) (col0 p))
       (zipWith pair (map Ropp (col0 v)) (col0 v)))
  = zipWith (reflected0 box) p v.
Proof.
  revert v; induction p as [|x p IH]; intros [|y v]; simpl; try reflexivity.
  apply f_equal2; [|apply IH].
  unfold reflected0; destruct (outside box (fst x)); reflexivity.
Qed.

Lemma column1_rows box (p v : list (R * R)) :
  zipWith (fun (r : R * R) (y : R) => (fst r, y)) v
    (zipWith (fun (t : bool) (xy : R * R) => if t then fst xy else snd xy)
       (map (outside box) (col1 p))
       (zipWith pair (map Ropp (col1 v)) (col1 v)))
  = zipWith (reflected1 box) p v.
Proof.
  revert v; induction p as [|x p IH]; intros [|y v]; simpl; try reflexivity.
  apply f_equal2; [|apply IH].
  unfold reflected1; destruct (outside box (snd x)); reflexivity.
Qed.

Lemma reflected_rows box (p v : list (R * R)) :
  zipWith (reflected1 box) p (zipWith (reflected0 box) p v)
  = zipWith (reflected box) p v.
Proof.
  revert v; induction p as [|x p IH]; intros [|y v]; simpl; try reflexivity.
  apply f_equal2; [reflexivity | apply IH].
Qed.

Ltac array_length :=
  unfold col0, col1, np_scale2; simpl;
  repeat (rewrite zipWith_length || rewrite length_map); lia.

Lemma _handle_boundary_shaped (s : ParticleSystem) :
  length (pos s) = length (vel s) ->
  _handle_boundary s =
    Ok (set_vel s (zipWith (reflected (box_size s)) (pos s) (vel s))).
Proof.
  intros H; unfold _handle_boundary.
  rewrite np_where_same by array_length; simpl.
  unfold set_col0.
  rewrite np_inplace_same by array_length.
  rewrite column0_rows; simpl.
  rewrite np_where_same by array_length; simpl.
  unfold set_col1.
  rewrite np_inplace_same by array_length.
  now rewrite column1_rows, reflected_rows.
Qed.

Lemma update_shaped (s : ParticleSystem) :
  length (pos s) = length (vel s) ->
  update s =
    Ok {| n := n s; simulation_mode := simulation_mode s;
          physical_param := physical_param s; box_size := box_size s;
          pos := zipWith moved (pos s) (vel s);
          vel := zipWith (reflected (box_size s))
                   (zipWith moved (pos s) (vel s)) (vel s) |}.
Proof.
  intros H; unfold update, np_iadd2.
  rewrite np_inplace_same by array_length.
  rewrite iadd_rows; simpl.
  rewrite _handle_boundary_shaped by array_length.
  reflexivity.
Qed.

(** [update] returns only on a state whose arrays have the same number of
    rows: a single velocity row is broadcast by [+=], but the column
    assignment of [_handle_boundary] then fails. *)
Lemma update_ok_lengths (s s' : ParticleSystem) :
  update s = Ok s' -> length (pos s) = length (vel s).
Proof.
  unfold update.
  destruct (np_iadd2 (pos s) (np_scale2 (vel s) dt)) as [p|e] eqn:Ep;
    simpl; [|discriminate].
  apply np_inplace_ok in Ep; destruct Ep as [Hp Hv].
  unfold np_scale2 in Hv; rewrite length_map in Hv.
  destruct Hv as [Hv|Hv]; [congruence|].
  unfold _handle_boundary; simpl.
  destruct (np_where (map (outside (box_size s)) (col0 p))
              (map Ropp (col0 (vel s))) (col0 (vel s))) as [vx|e] eqn:Ew;
    simpl; [|discriminate].
  apply np_where_length in Ew; [|array_length].
  destruct (set_col0 (vel s) vx) as [v1|e] eqn:Es; simpl; [|discriminate].
  intros _.
  apply np_inplace_ok in Es; destruct Es as [_ Hx].
  apply bdim_ok in Ew.
  unfold col0 in Ew; rewrite !length_map in Ew.
  lia.
Qed.

Lemma update_ok_iff (s : ParticleSystem) :
  is_ok (update s) = true <-> length (pos s) = length (vel s).
Proof.
  split.
  - destruct (update s) as [s'|e] eqn:E; [|discriminate].
    intros _; eapply update_ok_lengths; eassumption.
  - intros H; now rewrite update_shaped.
Qed.

(** ** Construction *)

Lemma zipWith_map_diag {I A B C : Type} (f : A -> B -> C)
      (g : I -> A) (h : I -> B) (l : list I) :
  zipWith f (map g l) (map h l) = map (fun i => f (g i) (h i)) l.
Proof.
  induction l as [|i l IH]; simpl; [reflexivity|].
  now rewrite IH.
Qed.

Lemma mode_scale_temperature (param : R) :
  mode_scale "temperature" param = Ok (Fin param).
Proof. reflexivity. Qed.

Lemma mode_scale_other (mode : string) (param : R) :
  mode <> "temperature"%string -> 0 < param ->
  mode_scale mode param = Ok (Fin (sqrt (1 / param))).
Proof.
  intros Hm Hp; unfold mode_scale, py_div, np_sqrt.
  rewrite (proj2 (String.eqb_neq _ _) Hm).
  destruct (Req_dec_T param 0) as [E|_]; [lra|]; simpl.
  destruct (Rlt_dec (1 / param) 0) as [H|_]; [|reflexivity].
  exfalso.
  assert (0 < 1 / param) by (apply Rdiv_lt_0_compat; lra).
  lra.
Qed.

Lemma mode_scale_other_zero (mode : string) :
  mode <> "temperature"%string ->
  mode_scale mode 0 = Raise ZeroDivisionError.
Proof.
  intros Hm; unfold mode_scale, py_div.
  rewrite (proj2 (String.eqb_neq _ _) Hm).
  destruct (Req_dec_T 0 0) as [_|E]; [reflexivity | now contradiction E].
Qed.

Lemma mode_scale_other_negative (mode : string) (param : R) :
  mode <> "temperature"%string -> param < 0 ->
  mode_scale mode param = Ok NaN.
Proof.
  intros Hm Hp; unfold mode_scale, py_div, np_sqrt.
  rewrite (proj2 (String.eqb_neq _ _) Hm).
  destruct (Req_dec_T param 0) as [E|_]; [lra|]; simpl.
  destruct (Rlt_dec (1 / param) 0) as [_|H]; [reflexivity|].
  exfalso; apply H.
  unfold Rdiv; rewrite Rmult_1_l.
  now apply Rinv_lt_0_compat.
Qed.

Lemma _initialize_velocities_scale (rng : RandomSource) (s : ParticleSystem) :
  _initialize_velocities rng s =
    (scale <- mode_scale (simulation_mode s) (physical_param s) ;;
     speed <- maxwell_rvs rng scale (n s) ;;
     u <- np_random_rand1 rng (n s) ;;
     vx <- np_binop Rmult speed (map cos (map (fun x => x * 2 * PI) u)) ;;
     vy <- np_binop Rmult speed (map sin (map (fun x => x * 2 * PI) u)) ;;
     v <- np_column_stack vx vy ;;
     Ok (set_vel s v)).
Proof. reflexivity. Qed.

Lemma _initialize_velocities_drawn (rng : RandomSource) (s : ParticleSystem)
      (sc : R) :
  mode_scale (simulation_mode s) (physical_param s) = Ok (Fin sc) ->
  0 <= sc -> (0 <= n s)%Z ->
  _initialize_velocities rng s = Ok (set_vel s (drawn rng sc (n s))).
Proof.
  intros Hs Hsc Hn.
  rewrite _initialize_velocities_scale, Hs; simpl.
  destruct (Rlt_dec sc 0) as [H|_]; [lra|].
  unfold np_random_rand1.
  destruct (n s <? 0)%Z eqn:E; [apply Z.ltb_lt in E; lia|]; simpl.
  rewrite !map_map.
  rewrite !np_binop_same by now rewrite !length_map.
  simpl.
  rewrite !zipWith_map_diag.
  unfold np_column_stack.
  rewrite !length_map, Nat.eqb_refl; simpl.
  now rewrite zipWith_map_diag.
Qed.

Lemma __init___drawn (rng : RandomSource) (k : Z) (mode : string)
      (param sc : R) :
  mode_scale mode param = Ok (Fin sc) -> 0 <= sc -> (0 <= k)%Z ->
  __init__ rng k mode param =
    Ok {| n := k; simulation_mode := mode; physical_param := param;
          box_size := 15;
          pos := np_scale2 (map (uniform2 rng) (indices k)) 15;
          vel := drawn rng sc k |}.
Proof.
  intros Hs Hsc Hk; unfold __init__, np_random_rand2.
  destruct (k <? 0)%Z eqn:E; [apply Z.ltb_lt in E; lia|]; simpl.
  now rewrite (_initialize_velocities_drawn rng _ sc).
Qed.

(** ** Scalars *)

Lemma Rltb_true_iff (x y : R) : Rltb x y = true <-> x < y.
Proof.
  unfold Rltb; destruct (Rlt_dec x y); split; intros; auto; try discriminate;
    try contradiction.
Qed.

Lemma outside_true_iff (box x : R) :
  outside box x = true <-> x < 0 \/ x > box.
Proof.
  unfold outside, Rgtb.
  rewrite orb_true_iff, !Rltb_true_iff.
  unfold Rgt; tauto.
Qed.

Lemma outside_false_iff (box x : R) :
  outside box x = false <-> ~ (x < 0 \/ x > box).
Proof.
  rewrite <- outside_true_iff.
  destruct (outside box x); split; intros H; auto; try discriminate.
  now contradiction H.
Qed.

Lemma norm2_reflected (box : R) (p' v : R * R) :
  norm2 (reflected box p' v) = norm2 v.
Proof.
  unfold norm2, reflected; simpl.
  destruct (outside box (fst p')), (outside box (snd p')); f_equal; ring.
Qed.

Lemma norm2_nonneg (v : R * R) : 0 <= norm2 v.
Proof. apply sqrt_pos. Qed.

Lemma PI_lower : 3 < PI.
Proof. pose proof PI2_3_2; lra. Qed.

Lemma PI_upper : PI < 4.
Proof.
  pose proof (PI_ineq 1) as [_ H].
  unfold sum_f_R0, tg_alt, PI_tg in H; simpl in H.
  lra.
Qed.

Lemma sqrt_4 : sqrt 4 = 2.
Proof. replace 4 with (2 * 2) by lra; apply sqrt_square; lra. Qed.

Lemma most_probable_lt_mean : sqrt 2 < 2 * sqrt (2 / PI).
Proof.
  pose proof PI_lower; pose proof PI_upper.
  rewrite <- sqrt_4 at 2.
  rewrite <- sqrt_mult_alt by lra.
  apply sqrt_lt_1_alt; split; [lra|].
  apply Rmult_lt_reg_r with PI; [lra|].
  field_simplify; lra.
Qed.

Lemma mean_lt_rms : 2 * sqrt (2 / PI) < sqrt 3.
Proof.
  pose proof PI_lower; pose proof PI_upper.
  rewrite <- sqrt_4 at 1.
  rewrite <- sqrt_mult_alt by lra.
  apply sqrt_lt_1_alt; split.
  - apply Rmult_le_pos; [lra|].
    apply Rlt_le, Rdiv_lt_0_compat; lra.
  - apply Rmult_lt_reg_r with PI; [lra|].
    field_simplify; lra.
Qed.

Lemma sqrt_inv_pos (param : R) : 0 < param -> 0 < sqrt (1 / param).
Proof.
  intros H; apply sqrt_lt_R0, Rdiv_lt_0_compat; lra.
Qed.

(** ** Speeds *)

Lemma speeds_rows (s : ParticleSystem) : speeds s = map norm2 (vel s).
Proof. reflexivity. Qed.

Lemma map_norm2_reflected (box : R) (p v : list (R * R)) :
  length p = length v ->
  map norm2 (zipWith (reflected box) p v) = map norm2 v.
Proof.
  revert v; induction p as [|x p IH]; intros [|y v] H; simpl in *;
    try reflexivity; try discriminate.
  rewrite norm2_reflected, IH; [reflexivity | congruence].
Qed.

Lemma speeds_update (s s' : ParticleSystem) :
  update s = Ok s' -> speeds s' = speeds s.
Proof.
  intros H.
  pose proof (update_ok_lengths _ _ H) as Hl.
  rewrite update_shaped in H by assumption.
  injection H as <-.
  rewrite !speeds_rows; simpl.
  apply map_norm2_reflected.
  rewrite zipWith_length; lia.
Qed.

(** ** The fields [update] leaves alone *)

Lemma update_config (s s' : ParticleSystem) :
  update s = Ok s' ->
  n s' = n s /\ simulation_mode s' = simulation_mode s /\
  physical_param s' = physical_param s /\ box_size s' = box_size s /\
  length (pos s') = length (pos s) /\ length (vel s') = length (vel s).
Proof.
  intros H.
  pose proof (update_ok_lengths _ _ H) as Hl.
  rewrite update_shaped in H by assumption.
  injection H as <-; simpl.
  repeat split; rewrite ?zipWith_length; lia.
Qed.

Lemma update_row (s s' : ParticleSystem) (i : nat) :
  update s = Ok s' -> (i < length (pos s))%nat ->
  row (pos s') i = moved (row (pos s) i) (row (vel s) i) /\
  row (vel s') i = reflected (box_size s) (row (pos s') i) (row (vel s) i).
Proof.
  intros H Hi.
  pose proof (update_ok_lengths _ _ H) as Hl.
  rewrite update_shaped in H by assumption.
  injection H as <-; simpl; unfold row.
  rewrite (zipWith_nth (reflected (box_size s)) _ _ i (0, 0) (0, 0))
    by (rewrite ?zipWith_length; lia).
  rewrite (zipWith_nth moved _ _ i (0, 0) (0, 0)) by lia.
  split; reflexivity.
Qed.

(** ** Characteristic speeds *)

Lemma get_characteristic_speeds_scale (s : ParticleSystem) :
  get_characteristic_speeds s =
    (scale <- mode_scale (simulation_mode s) (physical_param s) ;;
     Ok (fmul (Fin (sqrt 2)) scale,
         fmul (Fin (2 * sqrt (2 / PI))) scale,
         fmul (Fin (sqrt 3)) scale)).
Proof. reflexivity. Qed.

Lemma get_characteristic_speeds_fin (s : ParticleSystem) (sc : R) :
  mode_scale (simulation_mode s) (physical_param s) = Ok (Fin sc) ->
  get_characteristic_speeds s = Ok (triple_at sc).
Proof.
  intros H; now rewrite get_characteristic_speeds_scale, H.
Qed.

Lemma get_characteristic_speeds_config (s1 s2 : ParticleSystem) :
  simulation_mode s1 = simulation_mode s2 ->
  physical_param s1 = physical_param s2 ->
  get_characteristic_speeds s1 = get_characteristic_speeds s2.
Proof.
  intros Hm Hp; now rewrite !get_characteristic_speeds_scale, Hm, Hp.
Qed.

Lemma mode_scale_spec (m : Mode) (param : R) :
  0 < param -> mode_scale (mode_name m) param = Ok (Fin (scale_spec m param)).
Proof.
  intros Hp; destruct m; simpl.
  - apply mode_scale_temperature.
  - apply mode_scale_other; [discriminate | assumption].
Qed.

Lemma scale_spec_pos (m : Mode) (param : R) :
  0 < param -> 0 < scale_spec m param.
Proof.
  intros Hp; destruct m; simpl; [assumption | now apply sqrt_inv_pos].
Qed.

(** ** Sequences of calls *)

Lemma advance_config (k : nat) (s s' : ParticleSystem) :
  advance k s = Ok s' ->
  n s' = n s /\ simulation_mode s' = simulation_mode s /\
  physical_param s' = physical_param s /\ box_size s' = box_size s /\
  length (pos s') = length (pos s) /\ length (vel s') = length (vel s).
Proof.
  revert s; induction k as [|k IH]; intros s; simpl.
  - intros [= <-]; repeat split.
  - destruct (update s) as [s1|e] eqn:E; simpl; [|discriminate].
    intros H; apply IH in H.
    apply update_config in E.
    intuition congruence.
Qed.

Lemma advance_total (k : nat) (s : ParticleSystem) :
  length (pos s) = length (vel s) -> exists s', advance k s = Ok s'.
Proof.
  revert s; induction k as [|k IH]; intros s H; simpl.
  - now exists s.
  - rewrite update_shaped by assumption; simpl.
    apply IH; simpl; rewrite !zipWith_length; lia.
Qed.

Lemma perform_total (c : call) (s : ParticleSystem) :
  length (pos s) = length (vel s) ->
  is_ok (mode_scale (simulation_mode s) (physical_param s)) = true ->
  exists r, perform c s = Ok r /\
    n (fst r) = n s /\ simulation_mode (fst r) = simulation_mode s /\
    physical_param (fst r) = physical_param s /\
    length (pos (fst r)) = length (pos s) /\
    length (vel (fst r)) = length (vel s).
Proof.
  intros Hl Hs; destruct c; simpl.
  - rewrite update_shaped by assumption; simpl.
    eexists; split; [reflexivity|]; simpl.
    rewrite !zipWith_length; repeat split; lia.
  - eexists; split; [reflexivity|]; simpl; repeat split.
  - rewrite get_characteristic_speeds_scale.
    destruct (mode_scale (simulation_mode s) (physical_param s)) as [sc|e];
      [|discriminate]; simpl.
    eexists; split; [reflexivity|]; simpl; repeat split.
Qed.

Lemma run_total (cs : list call) (s : ParticleSystem) :
  length (pos s) = length (vel s) ->
  is_ok (mode_scale (simulation_mode s) (physical_param s)) = true ->
  exists s', run cs s = Ok s' /\ n s' = n s /\
    length (pos s') = length (pos s) /\ length (vel s') = length (vel s).
Proof.
  revert s; induction cs as [|c cs IH]; intros s Hl Hs; simpl.
  - exists s; repeat split.
  - destruct (perform_total c s Hl Hs) as (r & E & Hn & Hm & Hp & Hpl & Hvl).
    rewrite E; simpl.
    destruct (IH (fst r)) as (s' & Er & Hn' & Hpl' & Hvl').
    + congruence.
    + now rewrite Hm, Hp.
    + exists s'; split; [assumption|].
      repeat split; congruence.
Qed.

Lemma drawn_length (rng : RandomSource) (sc : R) (k : Z) :
  length (drawn rng sc k) = Z.to_nat k.
Proof.
  unfold drawn, indices; now rewrite length_map, length_seq.
Qed.

Lemma rand2_length (rng : RandomSource) (k : Z) :
  length (np_scale2 (map (uniform2 rng) (indices k)) 15) = Z.to_nat k.
Proof.
  unfold np_scale2, indices; now rewrite !length_map, length_seq.
Qed.

(** ** Failures of the constructor *)

Lemma __init___negative_count (rng : RandomSource) (k : Z) (mode : string)
      (param : R) :
  (k < 0)%Z -> __init__ rng k mode param = Raise ValueError.
Proof.
  intros H; unfold __init__, np_random_rand2.
  now rewrite (proj2 (Z.ltb_lt _ _) H).
Qed.

Lemma _initialize_velocities_by_scale (rng : RandomSource)
      (s1 s2 : ParticleSystem) :
  mode_scale (simulation_mode s1) (physical_param s1)
  = mode_scale (simulation_mode s2) (physical_param s2) ->
  n s1 = n s2 ->
  _initialize_velocities rng s1
  = (s <- _initialize_velocities rng s2 ;; Ok (set_vel s1 (vel s))).
Proof.
  intros Hs Hn.
  rewrite !_initialize_velocities_scale, Hs, Hn.
  destruct (mode_scale (simulation_mode s2) (physical_param s2)) as [sc|e];
    simpl; [|reflexivity].
  destruct (maxwell_rvs rng sc (n s2)) as [sp|e]; simpl; [|reflexivity].
  destruct (np_random_rand1 rng (n s2)) as [u|e]; simpl; [|reflexivity].
  destruct (np_binop Rmult sp (map cos (map (fun x => x * 2 * PI) u)))
    as [vx|e]; simpl; [|reflexivity].
  destruct (np_binop Rmult sp (map sin (map (fun x => x * 2 * PI) u)))
    as [vy|e]; simpl; [|reflexivity].
  now destruct (np_column_stack vx vy).
Qed.

Lemma __init___scale (rng : RandomSource) (k : Z) (mode : string) (param : R)
      (e : pyerror) :
  (0 <= k)%Z -> mode_scale mode param = Raise e ->
  __init__ rng k mode param = Raise e.
Proof.
  intros H Hs; unfold __init__, np_random_rand2.
  destruct (k <? 0)%Z eqn:E; [apply Z.ltb_lt in E; lia|]; simpl.
  rewrite _initialize_velocities_scale; cbn [simulation_mode physical_param].
  now rewrite Hs.
Qed.

Lemma __init___rejected_scale (rng : RandomSource) (k : Z) (mode : string)
      (param : R) (scale : npfloat) :
  (0 <= k)%Z -> mode_scale mode param = Ok scale ->
  maxwell_rvs rng scale k = Raise ValueError ->
  __init__ rng k mode param = Raise ValueError.
Proof.
  intros H Hs Hr; unfold __init__, np_random_rand2.
  destruct (k <? 0)%Z eqn:E; [apply Z.ltb_lt in E; lia|]; simpl.
  rewrite _initialize_velocities_scale; cbn [simulation_mode physical_param n].
  now rewrite Hs; cbn [bind]; rewrite Hr.
Qed.

Lemma __init___negative_param (rng : RandomSource) (k : Z) (mode : string)
      (param : R) :
  (0 <= k)%Z -> param < 0 -> __init__ rng k mode param = Raise ValueError.
Proof.
  intros Hk Hp.
  destruct (string_dec mode "temperature") as [->|Hm].
  - apply (__init___rejected_scale rng k _ param (Fin param));
      [assumption | apply mode_scale_temperature |].
    simpl; destruct (Rlt_dec param 0) as [_|H]; [reflexivity | contradiction].
  - apply (__init___rejected_scale rng k _ param NaN);
      [assumption | now apply mode_scale_other_negative | reflexivity].
Qed.

Lemma __init___zero_param (rng : RandomSource) (k : Z) (mode : string) :
  (0 <= k)%Z -> mode <> "temperature"%string ->
  __init__ rng k mode 0 = Raise ZeroDivisionError.
Proof.
  intros Hk Hm; apply __init___scale; [assumption|].
  now apply mode_scale_other_zero.
Qed.

(** ** The example state *)

Lemma near_wall_update : update near_wall = Ok near_wall_next.
Proof. exact (update_shaped near_wall eq_refl). Qed.

Lemma near_wall_outside : outside 15 (15 - 0.01 + 10 * dt) = true.
Proof. apply outside_true_iff; right; unfold dt; lra. Qed.

Lemma near_wall_inside : outside 15 (5 + 0 * dt) = false.
Proof. apply outside_false_iff; unfold dt; lra. Qed.

Lemma near_wall_next_vel : vel near_wall_next = [(- 10, 0)].
Proof.
  unfold near_wall_next, near_wall; simpl.
  unfold reflected, moved; simpl.
  now rewrite near_wall_outside, near_wall_inside.
Qed.

(** ** Motion and boundary step *)

(** C1.  On every state whose two arrays have the same number of rows and
    whose box has side 15, [update] returns a state in which every particle
    has moved by its velocity times 0.03 on both coordinates (the position
    is not clamped) and in which, on each axis independently, the velocity
    component is negated exactly when the moved coordinate on that axis is
    below 0 or above 15.  A particle at x = 15 - 0.01 with vx = 10 ends at
    x = 15 + 0.29 with vx = -10. *)
Theorem update_translates_then_reflects (s : ParticleSystem) :
  box_size s = 15 ->
  length (pos s) = length (vel s) ->
  exists s', update s = Ok s' /\
    length (pos s') = length (pos s) /\
    length (vel s') = length (vel s) /\
    forall i, (i < length (pos s))%nat ->
      let p := row (pos s) i in
      let v := row (vel s) i in
      let p' := row (pos s') i in
      let v' := row (vel s') i in
      fst p' = fst p + fst v * 0.03 /\
      snd p' = snd p + snd v * 0.03 /\
      (fst p' < 0 \/ fst p' > 15 -> fst v' = - fst v) /\
      (~ (fst p' < 0 \/ fst p' > 15) -> fst v' = fst v) /\
      (snd p' < 0 \/ snd p' > 15 -> snd v' = - snd v) /\
      (~ (snd p' < 0 \/ snd p' > 15) -> snd v' = snd v) /\
      (fst p = 15 - 0.01 -> fst v = 10 ->
       fst p' = 15 + 0.29 /\ fst v' = - 10).
Proof.
  intros Hbox Hlen.
  destruct (update s) as [s'|e] eqn:E;
    [|rewrite update_shaped in E by assumption; discriminate].
  exists s'; split; [reflexivity|].
  destruct (update_config _ _ E) as (_ & _ & _ & _ & Hp & Hv).
  split; [assumption|]; split; [assumption|].
  intros i Hi p v p' v'.
  destruct (update_row _ _ i E Hi) as [Hmove Hrefl].
  fold p v p' in Hmove; fold p' v v' in Hrefl.
  rewrite Hbox in Hrefl.
  assert (Hx : fst p' = fst p + fst v * 0.03) by now rewrite Hmove.
  assert (Hy : snd p' = snd p + snd v * 0.03) by now rewrite Hmove.
  assert (Hvx : fst v' = if outside 15 (fst p') then - fst v else fst v)
    by now rewrite Hrefl.
  assert (Hvy : snd v' = if outside 15 (snd p') then - snd v else snd v)
    by now rewrite Hrefl.
  repeat split; try assumption.
  - intros H; apply outside_true_iff in H; now rewrite H in Hvx.
  - intros H; apply outside_false_iff in H; now rewrite H in Hvx.
  - intros H; apply outside_true_iff in H; now rewrite H in Hvy.
  - intros H; apply outside_false_iff in H; now rewrite H in Hvy.
  - lra.
  - assert (H1 : outside 15 (fst p') = true)
      by (apply outside_true_iff; right; lra).
    rewrite H1 in Hvx; lra.
Qed.

Lemma update_translates_then_reflects_witness :
  box_size near_wall = 15 /\
  length (pos near_wall) = length (vel near_wall) /\
  exists s', update near_wall = Ok s' /\
             length (pos s') = length (pos near_wall).
Proof.
  split; [reflexivity|]; split; [reflexivity|].
  destruct (update_translates_then_reflects near_wall eq_refl eq_refl)
    as (s' & H1 & H2 & _).
  exists s'; split; assumption.
Defined.

(** C6.  [update] draws nothing: whenever it returns, every velocity
    component of every particle is its previous value or the negation of
    it, so the Euclidean norm of each particle's velocity, and the entry of
    [speeds] for it, are unchanged. *)
Theorem update_never_resamples (s s' : ParticleSystem) :
  update s = Ok s' ->
  length (vel s') = length (vel s) /\
  forall i, (i < length (vel s))%nat ->
    let v := row (vel s) i in
    let v' := row (vel s') i in
    (fst v' = fst v \/ fst v' = - fst v) /\
    (snd v' = snd v \/ snd v' = - snd v) /\
    norm2 v' = norm2 v /\
    nth i (speeds s') 0 = nth i (speeds s) 0.
Proof.
  intros E.
  pose proof (update_ok_lengths _ _ E) as Hl.
  destruct (update_config _ _ E) as (_ & _ & _ & _ & _ & Hv).
  split; [assumption|].
  intros i Hi v v'.
  destruct (update_row _ _ i E) as [_ Hrefl]; [lia|].
  fold v v' in Hrefl.
  rewrite Hrefl.
  split; [|split; [|split]].
  - unfold reflected; simpl.
    destruct (outside (box_size s) (fst (row (pos s') i))); auto.
  - unfold reflected; simpl.
    destruct (outside (box_size s) (snd (row (pos s') i))); auto.
  - apply norm2_reflected.
  - now rewrite (speeds_update _ _ E).
Qed.

Lemma update_never_resamples_witness :
  length (vel near_wall_next) = length (vel near_wall) /\
  forall i, (i < length (vel near_wall))%nat ->
    norm2 (row (vel near_wall_next) i) = norm2 (row (vel near_wall) i).
Proof.
  destruct (update_never_resamples near_wall near_wall_next near_wall_update)
    as [H1 H2].
  split; [exact H1|].
  intros i Hi; exact (proj1 (proj2 (proj2 (H2 i Hi)))).
Defined.

(** ** Instantaneous speeds *)

(** C5.  On every state that satisfies the shape invariant, [speeds] is
    computed from the current velocities: it has exactly [n] entries, entry
    [i] is sqrt(vx_i^2 + vy_i^2) for the velocity of particle [i], and every
    entry is non-negative. *)
Theorem speeds_are_norms (s : ParticleSystem) :
  shaped s ->
  speeds s = map norm2 (vel s) /\
  length (speeds s) = Z.to_nat (n s) /\
  forall i, (i < length (speeds s))%nat ->
    let vx := fst (row (vel s) i) in
    let vy := snd (row (vel s) i) in
    nth i (speeds s) 0 = sqrt (vx * vx + vy * vy) /\
    0 <= nth i (speeds s) 0.
Proof.
  intros [_ Hn].
  split; [reflexivity|].
  rewrite speeds_rows, length_map.
  split; [lia|].
  intros i Hi vx vy.
  assert (H : nth i (map norm2 (vel s)) 0 = norm2 (row (vel s) i)).
  { unfold row.
    rewrite (nth_indep _ 0 (norm2 (0, 0))) by now rewrite length_map.
    apply map_nth. }
  rewrite H; split; [reflexivity | apply norm2_nonneg].
Qed.

Lemma speeds_are_norms_witness :
  length (speeds near_wall) = 1%nat /\
  nth 0 (speeds near_wall) 0 = sqrt (10 * 10 + 0 * 0).
Proof.
  destruct (speeds_are_norms near_wall (conj eq_refl eq_refl))
    as (_ & H1 & H2).
  split; [exact H1|].
  exact (proj1 (H2 0%nat (Nat.lt_0_succ 0))).
Defined.

(** C9, as the specification states it, fails: after the [update] of
    [near_wall] the x component of the velocity has changed sign, and the
    two sequences of speeds are equal. *)
Lemma speeds_differ_after_sign_change_fails :
  ~ (forall s s' : ParticleSystem,
        update s = Ok s' -> sign_changed s s' -> speeds s' <> speeds s).
Proof.
  intros H.
  apply (H near_wall near_wall_next near_wall_update).
  - exists 0%nat; split; [simpl; lia|].
    left; unfold row; rewrite near_wall_next_vel; simpl; lra.
  - apply speeds_update, near_wall_update.
Qed.

(** C9, amended.  Two readings of [speeds] between which [update] ran are
    equal, also when velocity components changed sign: a reflection negates
    a component and leaves the norm as it was. *)
Theorem speeds_equal_across_update (s s' : ParticleSystem) :
  update s = Ok s' -> speeds s' = speeds s.
Proof.
  intros E; apply speeds_update, E.
Qed.

Lemma speeds_equal_across_update_witness :
  speeds near_wall_next = speeds near_wall.
Proof.
  exact (speeds_equal_across_update near_wall near_wall_next
           near_wall_update).
Defined.

(** ** The scale parameter *)

(** C2.  For a positive physical parameter, the scale computed by the class
    is [physicalParam] in temperature mode and sqrt(1 / physicalParam) in
    mass mode, and it is this one value that the constructor hands to the
    velocity sampler (every sampled velocity is the scale times a standard
    Maxwell draw, times the cosine and sine of the angle) and that
    [get_characteristic_speeds] multiplies its three constants with. *)
Theorem scale_mapping (m : Mode) (rng : RandomSource) (k : Z) (param : R) :
  0 < param -> (0 <= k)%Z ->
  mode_scale (mode_name m) param = Ok (Fin (scale_spec m param)) /\
  exists s, __init__ rng k (mode_name m) param = Ok s /\
    vel s = drawn rng (scale_spec m param) k /\
    get_characteristic_speeds s = Ok (triple_at (scale_spec m param)).
Proof.
  intros Hp Hk.
  pose proof (mode_scale_spec m param Hp) as Hs.
  split; [assumption|].
  eexists; split.
  - apply (__init___drawn rng k _ param (scale_spec m param));
      [assumption | apply Rlt_le, scale_spec_pos; assumption | assumption].
  - split; [reflexivity|].
    now apply get_characteristic_speeds_fin.
Qed.

Lemma scale_mapping_witness :
  mode_scale "mass" 4 = Ok (Fin (sqrt (1 / 4))) /\
  mode_scale "temperature" 2 = Ok (Fin 2).
Proof.
  split.
  - apply (proj1 (scale_mapping Mass rng0 1 4 ltac:(lra) ltac:(lia))).
  - apply (proj1 (scale_mapping Temperature rng0 1 2 ltac:(lra) ltac:(lia))).
Defined.

(** ** Characteristic speeds *)

(** C3.  For both modes and every positive physical parameter,
    [get_characteristic_speeds] returns exactly
    (sqrt 2 * scale, 2 * sqrt (2 / pi) * scale, sqrt 3 * scale), the scale
    being that of the mode; the result is the same for every state with this
    mode and parameter, whatever its count and arrays, and is the same after
    any number of calls of [update]. *)
Theorem characteristic_speeds_closed_form (m : Mode) (s : ParticleSystem) :
  simulation_mode s = mode_name m -> 0 < physical_param s ->
  get_characteristic_speeds s =
    Ok (Fin (sqrt 2 * scale_spec m (physical_param s)),
        Fin (2 * sqrt (2 / PI) * scale_spec m (physical_param s)),
        Fin (sqrt 3 * scale_spec m (physical_param s))) /\
  (forall s2 : ParticleSystem,
      simulation_mode s2 = simulation_mode s ->
      physical_param s2 = physical_param s ->
      get_characteristic_speeds s2 = get_characteristic_speeds s) /\
  (forall (k : nat) (s' : ParticleSystem),
      advance k s = Ok s' ->
      get_characteristic_speeds s' = get_characteristic_speeds s).
Proof.
  intros Hm Hp.
  split; [|split].
  - apply (get_characteristic_speeds_fin s (scale_spec m (physical_param s))).
    rewrite Hm; now apply mode_scale_spec.
  - intros s2 H1 H2; now apply get_characteristic_speeds_config.
  - intros k s' H.
    destruct (advance_config _ _ _ H) as (_ & H1 & H2 & _).
    now apply get_characteristic_speeds_config.
Qed.

Lemma characteristic_speeds_closed_form_witness :
  get_characteristic_speeds near_wall =
    Ok (Fin (sqrt 2 * 1), Fin (2 * sqrt (2 / PI) * 1), Fin (sqrt 3 * 1)) /\
  get_characteristic_speeds near_wall_next =
    get_characteristic_speeds near_wall.
Proof.
  destruct (characteristic_speeds_closed_form Temperature near_wall eq_refl
              ltac:(simpl; lra)) as (H1 & _ & H3).
  split; [exact H1|].
  apply (H3 1%nat); cbn [advance].
  now rewrite near_wall_update.
Defined.

(** C8.  For every positive scale, as the class computes it from the mode
    and the parameter of a state, [get_characteristic_speeds] returns the
    triple at that scale, and its three entries are strictly ordered:
    sqrt 2 * scale < 2 * sqrt (2 / pi) * scale < sqrt 3 * scale. *)
Theorem characteristic_speeds_ordered (s : ParticleSystem) (scale : R) :
  mode_scale (simulation_mode s) (physical_param s) = Ok (Fin scale) ->
  0 < scale ->
  get_characteristic_speeds s =
    Ok (Fin (sqrt 2 * scale), Fin (2 * sqrt (2 / PI) * scale),
        Fin (sqrt 3 * scale)) /\
  sqrt 2 * scale < 2 * sqrt (2 / PI) * scale < sqrt 3 * scale.
Proof.
  intros Hs Hpos.
  split; [now apply get_characteristic_speeds_fin|].
  pose proof most_probable_lt_mean; pose proof mean_lt_rms.
  split; apply Rmult_lt_compat_r; assumption.
Qed.

Lemma characteristic_speeds_ordered_witness :
  sqrt 2 * 1 < 2 * sqrt (2 / PI) * 1 < sqrt 3 * 1.
Proof.
  apply (characteristic_speeds_ordered near_wall 1 eq_refl); lra.
Defined.

(** ** The mode argument *)

(** C10.  The mode is compared with the string 'temperature' and nothing
    else.  For every other mode value, recognised or not, and a positive
    physical parameter, construction succeeds, keeps the mode as given,
    samples the velocities at the scale sqrt(1 / physicalParam), and
    [get_characteristic_speeds] uses that scale; whatever the parameter and
    the count, construction and [get_characteristic_speeds] fail with such a
    mode exactly as they do with 'mass', so no error is due to the mode. *)
Theorem unrecognized_mode_uses_mass_scale
        (rng : RandomSource) (k : Z) (mode : string) (param : R) :
  mode <> "temperature"%string ->
  (0 < param -> (0 <= k)%Z ->
   exists s, __init__ rng k mode param = Ok s /\
     simulation_mode s = mode /\
     vel s = drawn rng (sqrt (1 / param)) k /\
     get_characteristic_speeds s = Ok (triple_at (sqrt (1 / param)))) /\
  (is_ok (__init__ rng k mode param) = is_ok (__init__ rng k "mass" param)) /\
  (forall s1 s2 : ParticleSystem,
      simulation_mode s1 = mode -> simulation_mode s2 = "mass"%string ->
      physical_param s1 = param -> physical_param s2 = param ->
      get_characteristic_speeds s1 = get_characteristic_speeds s2).
Proof.
  intros Hm.
  assert (Hmass : "mass"%string <> "temperature"%string) by discriminate.
  assert (Hsame : mode_scale mode param = mode_scale "mass" param).
  { unfold mode_scale.
    now rewrite (proj2 (String.eqb_neq _ _) Hm),
                (proj2 (String.eqb_neq _ _) Hmass). }
  split; [|split].
  - intros Hp Hk.
    pose proof (mode_scale_other mode param Hm Hp) as Hs.
    eexists; split.
    + apply (__init___drawn rng k mode param (sqrt (1 / param)));
        [assumption | apply Rlt_le, sqrt_inv_pos; assumption | assumption].
    + split; [reflexivity|]; split; [reflexivity|].
      now apply get_characteristic_speeds_fin.
  - destruct (Z_lt_le_dec k 0) as [Hk|Hk].
    + now rewrite !__init___negative_count.
    + unfold __init__, np_random_rand2.
      destruct (k <? 0)%Z eqn:E; [apply Z.ltb_lt in E; lia|]; simpl.
      rewrite (_initialize_velocities_by_scale rng
                 {| n := k; simulation_mode := mode; physical_param := param;
                    box_size := 15;
                    pos := np_scale2 (map (uniform2 rng) (indices k)) 15;
                    vel := [] |}
                 {| n := k; simulation_mode := "mass";
                    physical_param := param; box_size := 15;
                    pos := np_scale2 (map (uniform2 rng) (indices k)) 15;
                    vel := [] |} Hsame eq_refl).
      now destruct (_initialize_velocities rng _).
  - intros s1 s2 H1 H2 H3 H4.
    rewrite !get_characteristic_speeds_scale, H1, H2, H3, H4.
    now rewrite Hsame.
Qed.

Lemma unrecognized_mode_uses_mass_scale_witness :
  exists s, __init__ rng0 2 "pressure" 4 = Ok s /\
    simulation_mode s = "pressure"%string /\
    get_characteristic_speeds s = Ok (triple_at (sqrt (1 / 4))).
Proof.
  destruct (proj1 (unrecognized_mode_uses_mass_scale rng0 2 "pressure" 4
                     ltac:(discriminate)) ltac:(lra) ltac:(lia))
    as (s & H1 & H2 & _ & H4).
  exists s; repeat split; assumption.
Defined.

(** ** Construction *)

(** C4, as the specification states it, fails: with a count of 0 (and the
    physical parameter 1, in temperature mode) the constructor raises
    nothing and returns a system with empty arrays. *)
Lemma construction_rejects_nonpositive_fails :
  ~ (forall (rng : RandomSource) (k : Z) (mode : string) (param : R),
        (k <= 0)%Z \/ param <= 0 ->
        exists e, __init__ rng k mode param = Raise e).
Proof.
  intros H.
  destruct (H rng0 0%Z "temperature"%string 1 (or_introl (Z.le_refl 0)))
    as [e He].
  rewrite (__init___drawn rng0 0 "temperature" 1 1) in He;
    [discriminate | reflexivity | lra | lia].
Qed.

(** C4, amended.  The constructor checks neither the count nor the physical
    parameter and stores both as given.  It fails exactly where a call it
    makes fails: a negative count ([ValueError] from the array of
    positions), a negative physical parameter ([ValueError] from the
    sampler, whose scale is then negative or NaN), and the physical
    parameter 0 in a mode other than 'temperature' ([ZeroDivisionError]).
    In every other case, so also for a count of 0 and for the parameter 0 in
    temperature mode, it returns a system. *)
Theorem construction_fails_only_in_calls
        (rng : RandomSource) (k : Z) (mode : string) (param : R) :
  ((k < 0)%Z -> __init__ rng k mode param = Raise ValueError) /\
  ((0 <= k)%Z -> param < 0 -> __init__ rng k mode param = Raise ValueError) /\
  ((0 <= k)%Z -> mode <> "temperature"%string -> param = 0 ->
   __init__ rng k mode param = Raise ZeroDivisionError) /\
  ((0 <= k)%Z -> 0 < param \/ (mode = "temperature"%string /\ param = 0) ->
   exists s, __init__ rng k mode param = Ok s /\
     n s = k /\ simulation_mode s = mode /\ physical_param s = param).
Proof.
  split; [|split; [|split]].
  - apply __init___negative_count.
  - apply __init___negative_param.
  - intros Hk Hm ->; now apply __init___zero_param.
  - intros Hk Hp.
    assert (Hs : exists sc, mode_scale mode param = Ok (Fin sc) /\ 0 <= sc).
    { destruct Hp as [Hp|[-> ->]].
      - destruct (string_dec mode "temperature") as [->|Hm].
        + exists param; split; [apply mode_scale_temperature | lra].
        + exists (sqrt (1 / param)); split;
            [now apply mode_scale_other | apply sqrt_pos].
      - exists 0; split; [apply mode_scale_temperature | lra]. }
    destruct Hs as (sc & Hs & Hsc).
    eexists; split;
      [apply (__init___drawn rng k mode param sc); assumption|].
    repeat split.
Qed.

Lemma construction_fails_only_in_calls_witness :
  __init__ rng0 (-1) "mass" 1 = Raise ValueError /\
  __init__ rng0 3 "mass" (-1) = Raise ValueError /\
  __init__ rng0 3 "mass" 0 = Raise ZeroDivisionError /\
  (exists s, __init__ rng0 0 "mass" 1 = Ok s /\ n s = 0%Z) /\
  (exists s, __init__ rng0 3 "temperature" 0 = Ok s /\ physical_param s = 0).
Proof.
  split; [|split; [|split; [|split]]].
  - apply (proj1 (construction_fails_only_in_calls rng0 (-1) "mass" 1)); lia.
  - apply (proj1 (proj2
             (construction_fails_only_in_calls rng0 3 "mass" (-1))));
      [lia | lra].
  - apply (proj1 (proj2 (proj2
             (construction_fails_only_in_calls rng0 3 "mass" 0))));
      [lia | discriminate | reflexivity].
  - destruct (proj2 (proj2 (proj2
               (construction_fails_only_in_calls rng0 0 "mass" 1)))
               ltac:(lia) ltac:(left; lra)) as (s & H1 & H2 & _).
    exists s; split; assumption.
  - destruct (proj2 (proj2 (proj2
               (construction_fails_only_in_calls rng0 3 "temperature" 0)))
               ltac:(lia) ltac:(right; split; reflexivity))
      as (s & H1 & _ & _ & H4).
    exists s; split; assumption.
Defined.

(** C7.  For every count above 0 (and a positive physical parameter, so that
    construction returns), the constructed system has exactly [count]
    positions and [count] velocities; every sequence of calls of [update],
    [speeds] and [get_characteristic_speeds] on it returns, and the system
    still has exactly [count] positions and [count] velocities after it. *)
Theorem lengths_equal_count
        (rng : RandomSource) (k : Z) (mode : string) (param : R) :
  (0 < k)%Z -> 0 < param ->
  exists s, __init__ rng k mode param = Ok s /\
    n s = k /\ shaped s /\
    forall cs : list call,
      exists s', run cs s = Ok s' /\ n s' = k /\ shaped s'.
Proof.
  intros Hk Hp.
  assert (Hs : exists sc, mode_scale mode param = Ok (Fin sc) /\ 0 <= sc).
  { destruct (string_dec mode "temperature") as [->|Hm].
    - exists param; split; [apply mode_scale_temperature | lra].
    - exists (sqrt (1 / param)); split;
        [now apply mode_scale_other | apply sqrt_pos]. }
  destruct Hs as (sc & Hs & Hsc).
  eexists; split;
    [apply (__init___drawn rng k mode param sc); [assumption..|lia]|].
  unfold shaped; cbn [n pos vel].
  rewrite drawn_length, rand2_length.
  split; [reflexivity|]; split; [lia|].
  intros cs.
  match goal with
  | |- exists s', run cs ?s0 = _ /\ _ =>
      destruct (run_total cs s0) as (s' & Hr & Hn & Hpl & Hvl)
  end.
  - cbn [pos vel]; now rewrite drawn_length, rand2_length.
  - cbn [simulation_mode physical_param]; now rewrite Hs.
  - exists s'; split; [assumption|].
    cbn [n pos vel] in Hn, Hpl, Hvl.
    rewrite drawn_length in Hvl; rewrite rand2_length in Hpl.
    rewrite Hn; repeat split; lia.
Qed.

Lemma lengths_equal_count_witness :
  exists s, __init__ rng0 3 "temperature" 2 = Ok s /\ shaped s /\
    exists s', run [CallUpdate; CallSpeeds; CallCharacteristicSpeeds;
                    CallUpdate] s = Ok s' /\ n s' = 3%Z /\ shaped s'.
Proof.
  destruct (lengths_equal_count rng0 3 "temperature" 2 ltac:(lia) ltac:(lra))
    as (s & H1 & _ & H2 & H3).
  exists s; split; [exact H1|]; split; [exact H2|].
  exact (H3 [CallUpdate; CallSpeeds; CallCharacteristicSpeeds; CallUpdate]).
Defined.

(** * Further properties of the class *)

(** ** Only [ValueError] comes out of the array operations *)

Lemma broadcast_to_raises {T : Type} (k : nat) (a : list T) (e : pyerror) :
  broadcast_to k a = Raise e -> e = ValueError.
Proof.
  unfold broadcast_to.
  destruct (Nat.eqb (length a) k); [discriminate|].
  destruct a as [|x [|y a]]; intros [= <-]; reflexivity.
Qed.

Lemma np_binop_raises {A B C : Type} (f : A -> B -> C) a b (e : pyerror) :
  np_binop f a b = Raise e -> e = ValueError.
Proof.
  unfold np_binop, bdim.
  destruct (Nat.eqb (length a) (length b)); simpl;
    [|destruct (Nat.eqb (length a) 1); simpl;
      [|destruct (Nat.eqb (length b) 1); simpl; [|now intros [= <-]]]];
    match goal with
    | |- context [broadcast_to ?d a] =>
        destruct (broadcast_to d a) as [a'|e1] eqn:Ea; simpl;
        [destruct (broadcast_to d b) as [b'|e2] eqn:Eb; simpl;
         [discriminate | intros [= <-]; eapply broadcast_to_raises, Eb]
        | intros [= <-]; eapply broadcast_to_raises, Ea]
    end.
Qed.

Lemma np_inplace_raises {A B : Type} (f : A -> B -> A) a b (e : pyerror) :
  np_inplace f a b = Raise e -> e = ValueError.
Proof.
  unfold np_inplace.
  destruct (broadcast_to (length a) b) as [b'|e1] eqn:Eb; simpl;
    [discriminate | intros [= <-]; eapply broadcast_to_raises, Eb].
Qed.

Lemma np_where_raises {A : Type} (c : list bool) (a b : list A)
      (e : pyerror) :
  np_where c a b = Raise e -> e = ValueError.
Proof.
  unfold np_where.
  destruct (np_binop pair a b) as [ab|e1] eqn:E1; simpl.
  - apply np_binop_raises.
  - intros [= <-]; eapply np_binop_raises, E1.
Qed.

Lemma _handle_boundary_raises (s : ParticleSystem) (e : pyerror) :
  _handle_boundary s = Raise e -> e = ValueError.
Proof.
  unfold _handle_boundary.
  destruct (np_where _ _ _) as [vx|e1] eqn:E1; simpl;
    [|intros [= <-]; eapply np_where_raises, E1].
  destruct (set_col0 (vel s) vx) as [v1|e2] eqn:E2; simpl;
    [|intros [= <-]; eapply np_inplace_raises, E2].
  destruct (np_where _ (map Ropp (col1 v1)) (col1 v1)) as [vy|e3] eqn:E3;
    simpl; [|intros [= <-]; eapply np_where_raises, E3].
  destruct (set_col1 v1 vy) as [v2|e4] eqn:E4; simpl;
    [discriminate | intros [= <-]; eapply np_inplace_raises, E4].
Qed.

Lemma update_raises (s : ParticleSystem) (e : pyerror) :
  update s = Raise e -> e = ValueError.
Proof.
  unfold update.
  destruct (np_iadd2 (pos s) (np_scale2 (vel s) dt)) as [p|e1] eqn:E1; simpl.
  - apply _handle_boundary_raises.
  - intros [= <-]; eapply np_inplace_raises, E1.
Qed.

(** X1.  [update] returns exactly on the states whose two arrays have the
    same number of rows.  On every other state it raises [ValueError] and
    nothing else, also when [vel] has a single row, which [+=] broadcasts
    over the positions: the column assignment then fails. *)
Theorem update_returns_iff_same_rows (s : ParticleSystem) :
  (length (pos s) = length (vel s) -> exists s', update s = Ok s') /\
  (length (pos s) <> length (vel s) -> update s = Raise ValueError).
Proof.
  split.
  - intros H; rewrite update_shaped by assumption; eauto.
  - intros H.
    destruct (update s) as [s'|e] eqn:E.
    + contradiction H; eapply update_ok_lengths, E.
    + now rewrite (update_raises s e E).
Qed.

Lemma update_returns_iff_same_rows_witness :
  (exists s', update near_wall = Ok s') /\
  update misshaped = Raise ValueError.
Proof.
  split.
  - apply (proj1 (update_returns_iff_same_rows near_wall)); reflexivity.
  - apply (proj2 (update_returns_iff_same_rows misshaped)); simpl; lia.
Defined.

(** ** Edge cases of the characteristic speeds *)



(** ** What a constructed system holds *)

Lemma __init___inv (rng : RandomSource) (k : Z) (mode : string) (param : R)
      (s : ParticleSystem) :
  __init__ rng k mode param = Ok s ->
  (0 <= k)%Z /\
  exists sc, mode_scale mode param = Ok (Fin sc) /\ 0 <= sc /\
    s = {| n := k; simulation_mode := mode; physical_param := param;
           box_size := 15;
           pos := np_scale2 (map (uniform2 rng) (indices k)) 15;
           vel := drawn rng sc k |}.
Proof.
  intros H.
  destruct (Z_lt_le_dec k 0) as [Hk|Hk];
    [rewrite __init___negative_count in H by assumption; discriminate|].
  split; [assumption|].
  destruct (mode_scale mode param) as [[sc|]|e] eqn:Es.
  - destruct (Rlt_dec sc 0) as [Hsc|Hsc].
    + rewrite (__init___rejected_scale rng k mode param (Fin sc)) in H;
        [discriminate | assumption | assumption |].
      simpl; destruct (Rlt_dec sc 0); [reflexivity | contradiction].
    + exists sc; split; [reflexivity|]; split; [lra|].
      rewrite (__init___drawn rng k mode param sc) in H;
        [now injection H | assumption | lra | assumption].
  - rewrite (__init___rejected_scale rng k mode param NaN) in H;
      [discriminate | assumption | assumption | reflexivity].
  - rewrite (__init___scale rng k mode param e) in H;
      [discriminate | assumption | assumption].
Qed.

Lemma indices_length (k : Z) : length (indices k) = Z.to_nat k.
Proof. unfold indices; apply length_seq. Qed.

Lemma row_map {I : Type} (f : I -> R * R) (l : list I) (d : I) (i : nat) :
  (i < length l)%nat -> row (map f l) i = f (nth i l d).
Proof.
  intros Hi; unfold row.
  rewrite (nth_indep _ (0, 0) (f d)) by now rewrite length_map.
  apply map_nth.
Qed.

(** X3.  When the draws of [np.random.rand] lie in [0, 1), every particle
    of a constructed system lies in the box: both coordinates are at least 0
    and below [box_size], which is 15. *)
Theorem constructed_positions_in_box
        (rng : RandomSource) (k : Z) (mode : string) (param : R)
        (s : ParticleSystem) :
  in_range rng ->
  __init__ rng k mode param = Ok s ->
  box_size s = 15 /\
  forall i, (i < length (pos s))%nat ->
    0 <= fst (row (pos s) i) < box_size s /\
    0 <= snd (row (pos s) i) < box_size s.
Proof.
  intros Hr H.
  destruct (__init___inv _ _ _ _ _ H) as (Hk & sc & _ & _ & ->).
  cbn [box_size pos].
  split; [reflexivity|].
  intros i Hi.
  unfold np_scale2 in *; rewrite map_map in *.
  rewrite length_map in Hi.
  rewrite (row_map _ _ 0%nat) by assumption; cbn [fst snd].
  destruct (Hr (nth i (indices k) 0%nat)) as (Hx & Hy & _).
  lra.
Qed.

Lemma rng0_in_range : in_range rng0.
Proof. intros i; simpl; lra. Qed.

Lemma constructed_positions_in_box_witness :
  exists s, __init__ rng0 2 "mass" 4 = Ok s /\
    forall i, (i < length (pos s))%nat ->
      0 <= fst (row (pos s) i) < box_size s /\
      0 <= snd (row (pos s) i) < box_size s.
Proof.
  eexists; split.
  - apply (__init___drawn rng0 2 "mass" 4 (sqrt (1 / 4)));
      [apply mode_scale_other; [discriminate | lra] | apply sqrt_pos | lia].
  - apply (constructed_positions_in_box rng0 2 "mass" 4 _ rng0_in_range).
    apply (__init___drawn rng0 2 "mass" 4 (sqrt (1 / 4)));
      [apply mode_scale_other; [discriminate | lra] | apply sqrt_pos | lia].
Defined.

(** ** Speeds over time *)

Lemma norm2_polar (a t : R) : 0 <= a -> norm2 (a * cos t, a * sin t) = a.
Proof.
  intros Ha; unfold norm2; cbn [fst snd].
  replace (a * cos t * (a * cos t) + a * sin t * (a * sin t))
    with (Rsqr a * (Rsqr (sin t) + Rsqr (cos t))) by (unfold Rsqr; ring).
  rewrite sin2_cos2, Rmult_1_r.
  now apply sqrt_Rsqr.
Qed.

Lemma speeds_drawn (rng : RandomSource) (sc : R) (k : Z) :
  0 <= sc -> (forall i, 0 <= maxwell_unit rng i) ->
  map norm2 (drawn rng sc k) = map (fun i => sc * maxwell_unit rng i) (indices k).
Proof.
  intros Hsc Hm; unfold drawn; rewrite map_map.
  apply map_ext; intros i.
  apply norm2_polar, Rmult_le_pos; [assumption | apply Hm].
Qed.

Lemma speeds_advance (j : nat) (s s' : ParticleSystem) :
  advance j s = Ok s' -> speeds s' = speeds s.
Proof.
  revert s; induction j as [|j IH]; intros s; simpl.
  - now intros [= <-].
  - destruct (update s) as [s1|e] eqn:E; simpl; [|discriminate].
    intros H; rewrite (IH _ H).
    now apply speeds_update.
Qed.

(** X4.  The speeds of a system are the Maxwell draws of its construction
    and stay so: when no standard draw is negative, a constructed system
    has, at construction and after any number of calls of [update] (each of
    which returns), [speeds] equal to the list of the draws multiplied by
    the scale of its mode.  The angles play no part. *)
Theorem speeds_are_the_draws_for_ever
        (rng : RandomSource) (k : Z) (mode : string) (param : R)
        (s : ParticleSystem) :
  in_range rng ->
  __init__ rng k mode param = Ok s ->
  exists sc, mode_scale mode param = Ok (Fin sc) /\
    forall j : nat, exists s', advance j s = Ok s' /\
      speeds s' = map (fun i => sc * maxwell_unit rng i) (indices k).
Proof.
  intros Hr H.
  destruct (__init___inv _ _ _ _ _ H) as (Hk & sc & Hs & Hsc & ->).
  exists sc; split; [assumption|].
  intros j.
  match goal with
  | |- exists s', advance j ?s0 = _ /\ _ =>
      destruct (advance_total j s0) as [s' Hs']
  end.
  - cbn [pos vel]; now rewrite drawn_length, rand2_length.
  - exists s'; split; [assumption|].
    rewrite (speeds_advance _ _ _ Hs'), speeds_rows; cbn [vel].
    apply speeds_drawn; [assumption|].
    intros i; apply (Hr i).
Qed.

Lemma speeds_are_the_draws_for_ever_witness :
  exists sc, mode_scale "temperature" 2 = Ok (Fin sc) /\
    exists s s', __init__ rng0 3 "temperature" 2 = Ok s /\
      advance 5 s = Ok s' /\
      speeds s' = map (fun i => sc * maxwell_unit rng0 i) (indices 3).
Proof.
  assert (H : __init__ rng0 3 "temperature" 2 =
              Ok {| n := 3; simulation_mode := "temperature";
                    physical_param := 2; box_size := 15;
                    pos := np_scale2 (map (uniform2 rng0) (indices 3)) 15;
                    vel := drawn rng0 2 3 |}).
  { apply __init___drawn; [reflexivity | lra | lia]. }
  destruct (speeds_are_the_draws_for_ever rng0 3 "temperature" 2 _
              rng0_in_range H) as (sc & H1 & H2).
  exists sc; split; [exact H1|].
  destruct (H2 5%nat) as (s' & H3 & H4).
  eexists; exists s'; split; [exact H|]; split; assumption.
Defined.

(** ** Particles stay with the box *)

Lemma confined_inside (box x v : R) : 0 <= x <= box -> confined box x v.
Proof. intros H; now left. Qed.

(** One step on one axis keeps the coordinate confined. *)
Lemma confined_step (box x v : R) :
  confined box x v ->
  confined box (x + v * dt)
    (if outside box (x + v * dt) then - v else v).
Proof.
  unfold confined, dt; intros H.
  destruct (outside box (x + v * 0.03)) eqn:E.
  - apply outside_true_iff in E.
    destruct H as [H|[H|H]]; [|lra|lra].
    destruct E as [E|E]; [right; right | right; left]; lra.
  - apply outside_false_iff in E.
    left; split.
    + destruct (Rle_dec 0 (x + v * 0.03)) as [L|L]; [assumption|].
      exfalso; apply E; left; lra.
    + destruct (Rle_dec (x + v * 0.03) box) as [L|L]; [assumption|].
      exfalso; apply E; right; lra.
Qed.

(** A confined coordinate is no further from the box than one step of its
    velocity component. *)
Lemma confined_bound (box x v : R) :
  confined box x v -> - (Rabs v * dt) <= x <= box + Rabs v * dt.
Proof.
  unfold confined, dt; intros H.
  pose proof (Rabs_pos v) as Hv.
  destruct H as [H|[(H1 & H2 & H3)|(H1 & H2 & H3)]].
  - lra.
  - rewrite (Rabs_left v) by assumption; lra.
  - rewrite (Rabs_right v) by lra; lra.
Qed.

Lemma update_keeps_confined (s s' : ParticleSystem) :
  confined_state s -> update s = Ok s' -> confined_state s'.
Proof.
  intros [Hl Hc] E.
  destruct (update_config _ _ E) as (_ & _ & _ & Hb & Hp & Hv).
  split; [congruence|].
  intros i Hi; rewrite Hp in Hi.
  destruct (update_row _ _ i E Hi) as [Hm Hr].
  destruct (Hc i Hi) as [Hx Hy].
  rewrite Hb, Hr, Hm; unfold reflected, moved; cbn [fst snd].
  split; now apply confined_step.
Qed.

Lemma advance_keeps_confined (j : nat) (s : ParticleSystem) :
  confined_state s ->
  exists s', advance j s = Ok s' /\ confined_state s' /\
             box_size s' = box_size s.
Proof.
  revert s; induction j as [|j IH]; intros s Hc; simpl.
  - exists s; auto.
  - destruct Hc as [Hl Hc].
    destruct (update s) as [s1|e] eqn:E;
      [|rewrite update_shaped in E by assumption; discriminate].
    simpl.
    destruct (IH s1) as (s' & H1 & H2 & H3).
    + eapply update_keeps_confined; [split; eassumption | exact E].
    + exists s'; split; [assumption|]; split; [assumption|].
      destruct (update_config _ _ E) as (_ & _ & _ & Hb & _).
      congruence.
Qed.

(** X5.  Particles never drift away.  On a state whose arrays have the same
    number of rows and whose particles all lie in the box, any number of
    calls of [update] returns, and afterwards every coordinate of every
    particle is no further outside the box than one step of the velocity
    component on that axis: between -|v| * 0.03 and box_size + |v| * 0.03. *)
Theorem particles_stay_within_one_step (s : ParticleSystem) (j : nat) :
  length (pos s) = length (vel s) ->
  (forall i, (i < length (pos s))%nat ->
     0 <= fst (row (pos s) i) <= box_size s /\
     0 <= snd (row (pos s) i) <= box_size s) ->
  exists s', advance j s = Ok s' /\
    forall i, (i < length (pos s'))%nat ->
      let p := row (pos s') i in
      let v := row (vel s') i in
      - (Rabs (fst v) * 0.03) <= fst p <= box_size s + Rabs (fst v) * 0.03 /\
      - (Rabs (snd v) * 0.03) <= snd p <= box_size s + Rabs (snd v) * 0.03.
Proof.
  intros Hl Hin.
  destruct (advance_keeps_confined j s) as (s' & H1 & [_ H2] & H3).
  - split; [assumption|].
    intros i Hi; destruct (Hin i Hi); split; now apply confined_inside.
  - exists s'; split; [assumption|].
    intros i Hi p v.
    destruct (H2 i Hi) as [Hx Hy].
    rewrite H3 in Hx, Hy.
    split; [apply (confined_bound _ _ _ Hx) | apply (confined_bound _ _ _ Hy)].
Qed.

Lemma particles_stay_within_one_step_witness :
  exists s', advance 7 near_wall = Ok s' /\
    forall i, (i < length (pos s'))%nat ->
      fst (row (pos s') i) <= 15 + Rabs (fst (row (vel s') i)) * 0.03.
Proof.
  destruct (particles_stay_within_one_step near_wall 7 eq_refl)
    as (s' & H1 & H2).
  - intros i Hi; simpl in Hi.
    destruct i as [|i]; [|lia].
    unfold row; simpl; lra.
  - exists s'; split; [exact H1|].
    intros i Hi; exact (proj2 (proj1 (H2 i Hi))).
Defined.





(** * Properties of the script *)

(** ** The numpy and scipy calls of the plot *)

Lemma np_linspace_length (a b : R) (num : nat) :
  length (np_linspace a b num) = num.
Proof. unfold np_linspace; now rewrite length_map, length_seq. Qed.

Lemma nth_map_seq {T : Type} (f : nat -> T) (num i : nat) (d : T) :
  (i < num)%nat -> nth i (map f (seq 0 num)) d = f i.
Proof.
  intros Hi.
  rewrite (nth_indep _ d (f 0%nat)) by now rewrite length_map, length_seq.
  now rewrite map_nth, seq_nth.
Qed.

Lemma np_linspace_nth (a b : R) (num i : nat) (d : R) :
  (i < num)%nat ->
  nth i (np_linspace a b num) d = a + INR i * ((b - a) / INR (num - 1)).
Proof.
  intros Hi; unfold np_linspace.
  now rewrite nth_map_seq.
Qed.

Lemma np_linspace_first (a b : R) (num : nat) (d : R) :
  (0 < num)%nat -> nth 0 (np_linspace a b num) d = a.
Proof.
  intros H; rewrite np_linspace_nth by assumption.
  simpl; ring.
Qed.

Lemma np_linspace_last (a b : R) (num : nat) (d : R) :
  (2 <= num)%nat -> nth (num - 1) (np_linspace a b num) d = b.
Proof.
  intros H; rewrite np_linspace_nth by lia.
  assert (INR (num - 1) <> 0) by (apply not_0_INR; lia).
  field; assumption.
Qed.

Lemma max_speed_bounds (mode_param : string) (p : R) :
  5 <= max_speed mode_param p <= 20.
Proof.
  unfold max_speed.
  destruct (String.eqb mode_param "mass"); [lra|].
  unfold Rmin, Rmax.
  destruct (Rle_dec 5 (4 * p)); destruct (Rle_dec 20 _); lra.
Qed.

(** The standard Maxwell density, up to its constant, is largest at
    [y * y = 2]. *)
Lemma maxwell_kernel_le (y : R) :
  y * y * exp (- (y * y) / 2) <= 2 * exp (- 1).
Proof.
  pose proof (exp_ineq1_le (y * y / 2 - 1)) as H.
  pose proof (exp_pos (- (y * y) / 2)) as Hp.
  replace (2 * exp (- 1))
    with (2 * exp (y * y / 2 - 1) * exp (- (y * y) / 2)).
  - apply Rmult_le_compat_r; lra.
  - rewrite Rmult_assoc, <- exp_plus; do 2 f_equal; field.
Qed.

Lemma maxwell_pdf_fin (sc x : R) :
  0 < sc -> exists r, maxwell_pdf (Fin sc) x = Fin r /\ 0 <= r.
Proof.
  intros Hsc; unfold maxwell_pdf.
  destruct (Rlt_dec 0 sc) as [_|H]; [|contradiction].
  destruct (Rlt_dec x 0) as [Hx|Hx].
  - exists 0; split; [reflexivity | lra].
  - eexists; split; [reflexivity|].
    pose proof (exp_pos (- (x / sc * (x / sc)) / 2)).
    assert (0 <= sqrt (2 / PI)) by apply sqrt_pos.
    assert (0 <= x / sc * (x / sc)) by nra.
    assert (0 < / sc) by now apply Rinv_0_lt_compat.
    unfold Rdiv at 1.
    apply Rmult_le_pos; [|lra].
    apply Rmult_le_pos; [|lra].
    rewrite Rmult_assoc.
    apply Rmult_le_pos; assumption.
Qed.

Lemma maxwell_pdf_at_most_probable (sc : R) :
  0 < sc ->
  maxwell_pdf (Fin sc) (sqrt 2 * sc)
  = Fin (sqrt (2 / PI) * (2 * exp (- 1)) / sc).
Proof.
  intros Hsc; unfold maxwell_pdf.
  destruct (Rlt_dec 0 sc) as [_|H]; [|contradiction].
  assert (H2 : 0 < sqrt 2) by (apply sqrt_lt_R0; lra).
  destruct (Rlt_dec (sqrt 2 * sc) 0) as [Hx|_]; [nra|].
  assert (E : sqrt 2 * sc / sc = sqrt 2) by (field; lra).
  rewrite E.
  assert (S : sqrt 2 * sqrt 2 = 2) by (apply sqrt_sqrt; lra).
  rewrite S, (Rmult_assoc (sqrt (2 / PI))), S.
  replace (- (2) / 2) with (- 1) by field.
  apply f_equal; field; lra.
Qed.

Lemma maxwell_pdf_le_top (sc x r : R) :
  0 < sc -> maxwell_pdf (Fin sc) x = Fin r ->
  r <= sqrt (2 / PI) * (2 * exp (- 1)) / sc.
Proof.
  intros Hsc; unfold maxwell_pdf.
  destruct (Rlt_dec 0 sc) as [_|H]; [|contradiction].
  assert (0 <= sqrt (2 / PI)) by apply sqrt_pos.
  assert (0 < / sc) by now apply Rinv_0_lt_compat.
  pose proof (exp_pos (- 1)).
  destruct (Rlt_dec x 0) as [Hx|Hx]; intros [= <-].
  - unfold Rdiv at 1.
    apply Rmult_le_pos; [|lra].
    apply Rmult_le_pos; lra.
  - unfold Rdiv at 1 6.
    apply Rmult_le_compat_r; [lra|].
    rewrite Rmult_assoc, Rmult_assoc.
    apply Rmult_le_compat_l; [assumption|].
    rewrite <- Rmult_assoc.
    apply maxwell_kernel_le.
Qed.

(** ** One run of the script *)

Lemma sidebar_param (current_mode : string) (v : R) :
  snd (sidebar current_mode v) = v.
Proof. unfold sidebar; now destruct (String.eqb current_mode _). Qed.

Lemma sidebar_mode (current_mode : string) (v : R) :
  fst (sidebar current_mode v)
  = if String.eqb current_mode "温度变化" then "temperature"%string
    else "mass"%string.
Proof. unfold sidebar; now destruct (String.eqb current_mode _). Qed.

(** The scale of a run: the slider value for the temperature setting of the
    radio button, sqrt(1 / slider value) for the other. *)
Lemma sidebar_scale (current_mode : string) (v : R) :
  0 < v ->
  mode_scale (fst (sidebar current_mode v)) v
  = Ok (Fin (if String.eqb current_mode "温度变化" then v else sqrt (1 / v)))
  /\ 0 < (if String.eqb current_mode "温度变化" then v else sqrt (1 / v)).
Proof.
  intros Hv; rewrite sidebar_mode.
  destruct (String.eqb current_mode _).
  - split; [apply mode_scale_temperature | assumption].
  - split; [apply mode_scale_other; [discriminate | assumption]
           | now apply sqrt_inv_pos].
Qed.

Lemma script_frame (rng : RandomSource) (current_mode : string)
      (count : Z) (v : R) :
  (0 <= count)%Z -> 0 < v ->
  let mp := fst (sidebar current_mode v) in
  let sc := if String.eqb current_mode "温度变化" then v else sqrt (1 / v) in
  exists s0 s1,
    __init__ rng count mp v = Ok s0 /\ update s0 = Ok s1 /\
    vel s0 = drawn rng sc count /\
    script rng current_mode count v =
      Ok {| system := s1; marks := triple_at sc; xlim := max_speed mp v;
            speed_range := np_linspace 0 (max_speed mp v) 300;
            theory_curve :=
              map (maxwell_pdf (Fin sc)) (np_linspace 0 (max_speed mp v) 300);
            hist_data := speeds s1 |}.
Proof.
  intros Hc Hv mp sc.
  destruct (sidebar_scale current_mode v Hv) as [Hs Hsc].
  fold mp sc in Hs, Hsc.
  pose proof (__init___drawn rng count mp v sc Hs (Rlt_le _ _ Hsc) Hc) as Hi.
  match type of Hi with _ = Ok ?s => set (s0 := s) in * end.
  assert (Hl : length (pos s0) = length (vel s0))
    by (unfold s0; cbn [pos vel]; now rewrite drawn_length, rand2_length).
  pose proof (update_shaped s0 Hl) as Hu.
  match type of Hu with _ = Ok ?s => set (s1 := s) in * end.
  exists s0, s1.
  split; [assumption|]; split; [assumption|]; split; [reflexivity|].
  unfold script.
  rewrite sidebar_param; fold mp.
  rewrite Hi; cbn [bind].
  rewrite (get_characteristic_speeds_fin s0 sc) by exact Hs; cbn [bind].
  rewrite Hu; cbn [bind].
  change (if String.eqb mp "temperature" then Ok (Fin v)
          else q <- py_div 1 v ;; Ok (np_sqrt q))
    with (mode_scale mp v).
  now rewrite Hs.
Qed.

(** X7.  The script never fails on what its widgets can give.  For every
    setting of the radio button, every count that is not negative and every
    positive slider value (the sliders give counts from 1000 and values from
    0.1), construction, [get_characteristic_speeds] and [update] all return.
    The system that is drawn has [count] rows in both arrays, the histogram
    has [count] speeds, the speed axis ends between 5 and 20, and the
    theoretical curve has 300 points from speed 0 to the end of the axis,
    none of them NaN or negative. *)
Theorem script_returns_on_every_setting
        (rng : RandomSource) (current_mode : string) (count : Z) (v : R) :
  (0 <= count)%Z -> 0 < v ->
  exists f, script rng current_mode count v = Ok f /\
    n (system f) = count /\ shaped (system f) /\
    length (hist_data f) = Z.to_nat count /\
    5 <= xlim f <= 20 /\
    length (speed_range f) = 300%nat /\
    nth 0 (speed_range f) 0 = 0 /\
    nth 299 (speed_range f) 0 = xlim f /\
    length (theory_curve f) = 300%nat /\
    forall c, In c (theory_curve f) -> exists r, c = Fin r /\ 0 <= r.
Proof.
  intros Hc Hv.
  destruct (script_frame rng current_mode count v Hc Hv)
    as (s0 & s1 & Hi & Hu & _ & Hf).
  destruct (sidebar_scale current_mode v Hv) as [_ Hsc].
  eexists; split; [exact Hf|].
  cbn [system hist_data xlim speed_range theory_curve].
  destruct (__init___inv _ _ _ _ _ Hi) as (_ & sc' & _ & _ & E0).
  destruct (update_config _ _ Hu) as (Hn & _ & _ & _ & Hp & Hvl).
  assert (Hn0 : n s0 = count) by now rewrite E0.
  assert (Hp0 : length (pos s0) = Z.to_nat count)
    by (rewrite E0; cbn [pos]; apply rand2_length).
  assert (Hv0 : length (vel s0) = Z.to_nat count)
    by (rewrite E0; cbn [vel]; apply drawn_length).
  split; [congruence|].
  split; [unfold shaped; rewrite Hn, Hp, Hvl, Hn0, Hp0, Hv0; lia|].
  split; [rewrite speeds_rows, length_map; congruence|].
  split; [apply max_speed_bounds|].
  split; [apply np_linspace_length|].
  split; [apply np_linspace_first; lia|].
  split; [apply (np_linspace_last 0 _ 300); lia|].
  split; [now rewrite length_map, np_linspace_length|].
  intros c Hin; apply in_map_iff in Hin; destruct Hin as (x & <- & _).
  now apply maxwell_pdf_fin.
Qed.

Lemma script_returns_on_every_setting_witness :
  exists f, script rng0 "质量变化" 1000 0.1 = Ok f /\
    n (system f) = 1000%Z /\ length (theory_curve f) = 300%nat.
Proof.
  destruct (script_returns_on_every_setting rng0 "质量变化" 1000 0.1
              ltac:(lia) ltac:(lra))
    as (f & H1 & H2 & _ & _ & _ & _ & _ & _ & H3 & _).
  exists f; split; [exact H1|]; split; assumption.
Defined.

(** X8.  One scale serves the whole figure.  With draws in their documented
    range, the three marked speeds, the theoretical curve and the histogram
    of a run all belong to the same scale, the slider value for the
    temperature setting and sqrt(1 / slider value) for the other: the marks
    are the characteristic speeds at that scale, the curve is the Maxwell
    density of that scale on the speed axis, and the histogram data are the
    standard Maxwell draws multiplied by it. *)
Theorem script_uses_one_scale
        (rng : RandomSource) (current_mode : string) (count : Z) (v : R) :
  in_range rng -> (0 <= count)%Z -> 0 < v ->
  let sc := if String.eqb current_mode "温度变化" then v else sqrt (1 / v) in
  exists f, script rng current_mode count v = Ok f /\
    marks f = triple_at sc /\
    theory_curve f = map (maxwell_pdf (Fin sc)) (speed_range f) /\
    hist_data f = map (fun i => sc * maxwell_unit rng i) (indices count).
Proof.
  intros Hr Hc Hv sc.
  destruct (script_frame rng current_mode count v Hc Hv)
    as (s0 & s1 & Hi & Hu & Hd & Hf).
  destruct (sidebar_scale current_mode v Hv) as [_ Hsc].
  fold sc in Hd, Hf, Hsc.
  eexists; split; [exact Hf|].
  cbn [marks theory_curve speed_range hist_data].
  split; [reflexivity|]; split; [reflexivity|].
  rewrite (speeds_update _ _ Hu), speeds_rows, Hd.
  apply speeds_drawn; [lra|].
  intros i; apply (Hr i).
Qed.

Lemma script_uses_one_scale_witness :
  exists f, script rng0 "温度变化" 3 2 = Ok f /\
    marks f = triple_at 2 /\
    hist_data f = map (fun i => 2 * maxwell_unit rng0 i) (indices 3).
Proof.
  destruct (script_uses_one_scale rng0 "温度变化" 3 2 rng0_in_range
              ltac:(lia) ltac:(lra)) as (f & H1 & H2 & _ & H4).
  exists f; split; [exact H1|]; split; assumption.
Defined.

(** X9.  The mark of the most probable speed stands where the theoretical
    curve is highest: in every run, the Maxwell density of the run's scale
    is finite at the first of the three marked speeds, and neither the
    density at any other speed nor any point of the plotted curve exceeds
    its value there. *)
Theorem most_probable_mark_tops_the_curve
        (rng : RandomSource) (current_mode : string) (count : Z) (v : R) :
  (0 <= count)%Z -> 0 < v ->
  let sc := if String.eqb current_mode "温度变化" then v else sqrt (1 / v) in
  exists f v_p v_mean v_rms top,
    script rng current_mode count v = Ok f /\
    marks f = (Fin v_p, Fin v_mean, Fin v_rms) /\
    maxwell_pdf (Fin sc) v_p = Fin top /\
    (forall x r, maxwell_pdf (Fin sc) x = Fin r -> r <= top) /\
    (forall c, In c (theory_curve f) -> exists r, c = Fin r /\ r <= top).
Proof.
  intros Hc Hv sc.
  destruct (script_frame rng current_mode count v Hc Hv)
    as (s0 & s1 & _ & _ & _ & Hf).
  destruct (sidebar_scale current_mode v Hv) as [_ Hsc].
  fold sc in Hf, Hsc.
  eexists; exists (sqrt 2 * sc), (2 * sqrt (2 / PI) * sc), (sqrt 3 * sc).
  exists (sqrt (2 / PI) * (2 * exp (- 1)) / sc).
  split; [exact Hf|].
  cbn [marks theory_curve].
  split; [reflexivity|].
  split; [now apply maxwell_pdf_at_most_probable|].
  split.
  - intros x r; now apply maxwell_pdf_le_top.
  - intros c Hin; apply in_map_iff in Hin; destruct Hin as (x & <- & _).
    destruct (maxwell_pdf_fin sc x Hsc) as (r & Hr & _).
    exists r; split; [assumption|].
    eapply maxwell_pdf_le_top; eassumption.
Qed.

Lemma most_probable_mark_tops_the_curve_witness :
  exists f v_p top,
    script rng0 "温度变化" 3 2 = Ok f /\
    fst (fst (marks f)) = Fin v_p /\
    maxwell_pdf (Fin 2) v_p = Fin top /\
    forall x r, maxwell_pdf (Fin 2) x = Fin r -> r <= top.
Proof.
  destruct (most_probable_mark_tops_the_curve rng0 "温度变化" 3 2
              ltac:(lia) ltac:(lra))
    as (f & v_p & v_mean & v_rms & top & H1 & H2 & H3 & H4 & _).
  exists f, v_p, top; split; [exact H1|].
  split; [now rewrite H2|]; split; assumption.
Defined.

(** ** The marks and the speed axis *)

Lemma sqrt_3_lt_4 : sqrt 3 < 4.
Proof.
  pose proof sqrt_4.
  assert (sqrt 3 < sqrt 4) by (apply sqrt_lt_1_alt; lra).
  lra.
Qed.

Lemma sqrt_25 : sqrt 25 = 5.
Proof. replace 25 with (5 * 5) by lra; apply sqrt_square; lra. Qed.

Lemma rms_on_axis_temperature (v : R) :
  0 < v ->
  sqrt 3 * v <= max_speed "temperature" v <-> sqrt 3 * v <= 20.
Proof.
  intros Hv; unfold max_speed; cbn [String.eqb Ascii.eqb Bool.eqb].
  pose proof sqrt_3_lt_4.
  unfold Rmin, Rmax.
  destruct (Rle_dec 5 (4 * v)); destruct (Rle_dec 20 _); split; intros; nra.
Qed.

Lemma rms_on_axis_mass (v : R) :
  0 < v ->
  sqrt 3 * sqrt (1 / v) <= max_speed "mass" v <-> 0.12 <= v.
Proof.
  intros Hv; unfold max_speed; cbn [String.eqb Ascii.eqb Bool.eqb].
  assert (Hq : 0 < 1 / v) by (apply Rdiv_lt_0_compat; lra).
  rewrite <- sqrt_mult_alt by lra.
  rewrite <- sqrt_25.
  assert (E : 3 * (1 / v) <= 25 <-> 0.12 <= v).
  { split; intros H.
    - apply Rmult_le_compat_r with (r := v) in H; [|lra].
      replace (3 * (1 / v) * v) with 3 in H by (field; lra).
      lra.
    - apply Rmult_le_reg_r with v; [assumption|].
      replace (3 * (1 / v) * v) with 3 by (field; lra).
      lra. }
  rewrite <- E; split.
  - apply sqrt_le_0; lra.
  - apply sqrt_le_1_alt.
Qed.

(** X10.  When the marks fit on the speed axis.  In every run the three
    marked speeds are positive and increase from the first to the last; the
    last one, the root-mean-square speed, lies on the speed axis, which ends
    at [max_speed], exactly when sqrt 3 * T <= 20 for the temperature
    setting and exactly when the mass is at least 0.12 for the other.  For a
    hotter or a lighter gas the mark is beyond the end of the axis. *)
Theorem marks_fit_on_the_axis
        (rng : RandomSource) (current_mode : string) (count : Z) (v : R) :
  (0 <= count)%Z -> 0 < v ->
  exists f v_p v_mean v_rms,
    script rng current_mode count v = Ok f /\
    marks f = (Fin v_p, Fin v_mean, Fin v_rms) /\
    0 < v_p < v_mean /\ v_mean < v_rms /\
    (v_rms <= xlim f <->
     if String.eqb current_mode "温度变化" then sqrt 3 * v <= 20
     else 0.12 <= v).
Proof.
  intros Hc Hv.
  destruct (script_frame rng current_mode count v Hc Hv)
    as (s0 & s1 & _ & _ & _ & Hf).
  destruct (sidebar_scale current_mode v Hv) as [_ Hsc].
  rewrite sidebar_mode in Hf.
  eexists; eexists; eexists; eexists.
  split; [exact Hf|].
  cbn [marks xlim].
  split; [reflexivity|].
  pose proof most_probable_lt_mean; pose proof mean_lt_rms.
  assert (0 < sqrt 2) by (apply sqrt_lt_R0; lra).
  destruct (String.eqb current_mode _).
  - split; [nra|]; split; [nra|].
    now apply rms_on_axis_temperature.
  - split; [nra|]; split; [nra|].
    now apply rms_on_axis_mass.
Qed.

Lemma marks_fit_on_the_axis_witness :
  exists f v_rms,
    script rng0 "质量变化" 1000 0.1 = Ok f /\
    snd (marks f) = Fin v_rms /\
    ~ v_rms <= xlim f.
Proof.
  destruct (marks_fit_on_the_axis rng0 "质量变化" 1000 0.1
              ltac:(lia) ltac:(lra))
    as (f & v_p & v_mean & v_rms & H1 & H2 & _ & _ & H3).
  exists f, v_rms; split; [exact H1|].
  split; [now rewrite H2|].
  intros H; apply H3 in H.
  change (String.eqb "质量变化" "温度变化") with false in H.
  lra.
Defined.

(** ** A particle placed outside the box *)

(** Two steps on one axis, starting further outside than one step. *)
Lemma far_outside_two_steps (box x v : R) :
  box + Rabs v * dt < x \/ x < - (Rabs v * dt) ->
  let x1 := x + v * dt in
  let v1 := if outside box x1 then - v else v in
  let x2 := x1 + v1 * dt in
  let v2 := if outside box x2 then - v1 else v1 in
  outside box x1 = true /\ x2 = x /\ v2 = v /\ outside box x2 = true.
Proof.
  intros H; cbv zeta.
  assert (Hv : - Rabs v <= v <= Rabs v).
  { split; [|apply Rle_abs].
    pose proof (Rle_abs (- v)) as H1; rewrite Rabs_Ropp in H1; lra. }
  pose proof (Rabs_pos v) as Ha.
  set (x1 := x + v * dt).
  assert (O1 : outside box x1 = true)
    by (apply outside_true_iff; unfold x1, dt in *; lra).
  rewrite O1.
  replace (x1 + - v * dt) with x by (unfold x1; ring).
  assert (O2 : outside box x = true)
    by (apply outside_true_iff; unfold dt in *; lra).
  rewrite O2.
  repeat split; ring.
Qed.

(** X11.  [update] does not bring back a particle that is placed further
    outside the box than one step of its velocity component (the
    constructor places none there): the coordinate is outside after the
    first call and after the second, every call reverses the velocity
    component, and after two calls the coordinate and the component are
    what they were at the start. *)
Theorem far_outside_particle_oscillates
        (s s1 s2 : ParticleSystem) (i : nat) :
  update s = Ok s1 -> update s1 = Ok s2 ->
  (i < length (pos s))%nat ->
  (let x := fst (row (pos s) i) in
   let v := fst (row (vel s) i) in
   box_size s + Rabs v * 0.03 < x \/ x < - (Rabs v * 0.03)) ->
  (fst (row (pos s1) i) < 0 \/ fst (row (pos s1) i) > box_size s) /\
  fst (row (vel s1) i) = - fst (row (vel s) i) /\
  (fst (row (pos s2) i) < 0 \/ fst (row (pos s2) i) > box_size s) /\
  fst (row (pos s2) i) = fst (row (pos s) i) /\
  fst (row (vel s2) i) = fst (row (vel s) i).
Proof.
  intros E1 E2 Hi Hfar.
  destruct (update_config _ _ E1) as (_ & _ & _ & Hb & Hp & _).
  destruct (update_row _ _ i E1 Hi) as [Hm1 Hr1].
  destruct (update_row _ _ i E2) as [Hm2 Hr2]; [congruence|].
  rewrite Hb in Hr2.
  destruct (far_outside_two_steps (box_size s) _ _ Hfar)
    as (O1 & X2 & V2 & O2).
  assert (P1 : fst (row (pos s1) i)
               = fst (row (pos s) i) + fst (row (vel s) i) * dt)
    by now rewrite Hm1.
  assert (V1 : fst (row (vel s1) i) = - fst (row (vel s) i))
    by (rewrite Hr1; unfold reflected; cbn [fst]; rewrite P1; now rewrite O1).
  assert (P2 : fst (row (pos s2) i) = fst (row (pos s) i)).
  { rewrite Hm2; unfold moved; cbn [fst]; rewrite V1, P1; ring. }
  rewrite O1 in X2, V2, O2.
  split; [apply outside_true_iff; now rewrite P1|].
  split; [assumption|].
  assert (O2' : outside (box_size s) (fst (row (pos s2) i)) = true).
  { rewrite P2; rewrite X2 in O2; exact O2. }
  split; [now apply outside_true_iff|].
  split; [assumption|].
  rewrite Hr2; unfold reflected; cbn [fst]; rewrite O2', V1; ring.
Qed.

Lemma far_out_update : update far_out = Ok far_out_next.
Proof. exact (update_shaped far_out eq_refl). Qed.

Lemma far_out_next_update : update far_out_next = Ok far_out_next2.
Proof. exact (update_shaped far_out_next eq_refl). Qed.

Lemma far_outside_particle_oscillates_witness :
  fst (row (pos far_out_next2) 0) = 20 /\
  fst (row (vel far_out_next2) 0) = 10.
Proof.
  destruct (far_outside_particle_oscillates far_out far_out_next
              far_out_next2 0 far_out_update far_out_next_update
              (Nat.lt_0_succ 0)) as (_ & _ & _ & H1 & H2).
  - left; unfold row; simpl.
    rewrite (Rabs_right 10) by lra; lra.
  - split; [exact H1 | exact H2].
Defined.

(** ** The physical parameter scales the velocities *)

Lemma drawn_scaled (rng : RandomSource) (sc : R) (k : Z) :
  drawn rng sc k = np_scale2 (drawn rng 1 k) sc.
Proof.
  unfold drawn, np_scale2; rewrite map_map.
  apply map_ext; intros i; cbn [fst snd].
  f_equal; ring.
Qed.

Lemma norm2_scaled (v : R * R) (sc : R) :
  0 <= sc -> norm2 (fst v * sc, snd v * sc) = norm2 v * sc.
Proof.
  intros Hsc; unfold norm2; cbn [fst snd].
  replace (fst v * sc * (fst v * sc) + snd v * sc * (snd v * sc))
    with ((fst v * fst v + snd v * snd v) * Rsqr sc) by (unfold Rsqr; ring).
  rewrite sqrt_mult_alt by nra.
  now rewrite sqrt_Rsqr.
Qed.

Lemma mode_scale_unit (mode : string) : mode_scale mode 1 = Ok (Fin 1).
Proof.
  destruct (string_dec mode "temperature") as [->|Hm].
  - apply mode_scale_temperature.
  - rewrite mode_scale_other by (assumption || lra).
    replace (1 / 1) with 1 by field.
    now rewrite sqrt_1.
Qed.

(** X12.  The physical parameter only rescales the sample.  For one random
    source, count and mode, the system constructed with a positive parameter
    has the positions of the system constructed with the parameter 1, and
    its velocities and its speeds are those of that system multiplied by the
    scale: by the parameter itself in temperature mode, by
    sqrt(1 / parameter) in every other mode. *)
Theorem parameter_rescales_the_sample
        (rng : RandomSource) (k : Z) (mode : string) (param : R) :
  (0 <= k)%Z -> 0 < param ->
  let sc := if String.eqb mode "temperature" then param
            else sqrt (1 / param) in
  exists s1 s, __init__ rng k mode 1 = Ok s1 /\
    __init__ rng k mode param = Ok s /\
    pos s = pos s1 /\
    vel s = np_scale2 (vel s1) sc /\
    speeds s = map (fun x => x * sc) (speeds s1).
Proof.
  intros Hk Hp sc.
  assert (Hs : mode_scale mode param = Ok (Fin sc) /\ 0 < sc).
  { unfold sc; destruct (String.eqb mode "temperature") eqn:E.
    - apply String.eqb_eq in E; subst mode.
      split; [apply mode_scale_temperature | assumption].
    - apply String.eqb_neq in E.
      split; [now apply mode_scale_other | now apply sqrt_inv_pos]. }
  destruct Hs as [Hs Hsc].
  eexists; eexists.
  split; [apply (__init___drawn rng k mode 1 1);
          [apply mode_scale_unit | lra | assumption]|].
  split; [apply (__init___drawn rng k mode param sc);
          [assumption | lra | assumption]|].
  cbn [pos vel]; rewrite !speeds_rows; cbn [vel].
  split; [reflexivity|].
  split; [apply drawn_scaled|].
  rewrite (drawn_scaled rng sc k); unfold np_scale2.
  rewrite !map_map.
  apply map_ext; intros v.
  apply norm2_scaled; lra.
Qed.

Lemma parameter_rescales_the_sample_witness :
  exists s1 s, __init__ rng0 3 "temperature" 1 = Ok s1 /\
    __init__ rng0 3 "temperature" 2 = Ok s /\
    speeds s = map (fun x => x * 2) (speeds s1).
Proof.
  destruct (parameter_rescales_the_sample rng0 3 "temperature" 2
              ltac:(lia) ltac:(lra)) as (s1 & s & H1 & H2 & _ & _ & H3).
  exists s1, s; split; [exact H1|]; split; [exact H2 | exact H3].
Defined.
